(** * SemanticATS: the ResumeSearch component

    A shallow embedding of the search front end of Ensyllis/SemanticATS
    (the React component [ResumeSearch], in its two copies
    [src/unnamed/part_001] -- the one [App.tsx] mounts, with the modal --
    and [src/unnamed/part_000] -- the earlier one, with the side panel),
    together with a model of the search service it talks to.

    - JavaScript strings are sequences of UTF-16 code units, so [length]
      and [take] are [String.prototype.length] and [slice(0, n)].
    - The body of a response is untyped JSON ([jsvalue]); the component
      reads it through the TypeScript type [SearchResult].
    - [useState] slots are the fields of the record [State]; the [async]
      function [searchResumes] is a computation in a small monad that
      threads the slots, the log of calls that leave the component and a
      thrown value. *)

From Stdlib Require Import Floats.
From Stdlib Require Ascii String.
From stdpp Require Import base option list sets gmap strings.

(** ** JavaScript strings *)

(** A string is the list of its UTF-16 code units. *)
Abbreviation jsstring := (list N).

(** A literal of the source, all of whose characters are ASCII. *)
Definition lit (s : string) : jsstring :=
  Ascii.N_of_ascii <$> String.list_ascii_of_string s.

(** ECMAScript [WhiteSpace]: TAB, VT, FF, ZWNBSP and the Unicode
    space separators (category Zs). *)
Definition isWhiteSpace (c : N) : bool :=
  ((c =? 0x0009) || (c =? 0x000B) || (c =? 0x000C) || (c =? 0xFEFF)
   || (c =? 0x0020) || (c =? 0x00A0) || (c =? 0x1680)
   || ((0x2000 <=? c) && (c <=? 0x200A))
   || (c =? 0x202F) || (c =? 0x205F) || (c =? 0x3000))%N.

(** ECMAScript [LineTerminator]: LF, CR, LS, PS. *)
Definition isLineTerminator (c : N) : bool :=
  ((c =? 0x000A) || (c =? 0x000D) || (c =? 0x2028) || (c =? 0x2029))%N.

(** The code units [String.prototype.trim] strips. *)
Definition isTrimmable (c : N) : bool :=
  isWhiteSpace c || isLineTerminator c.

Fixpoint trimStart (s : jsstring) : jsstring :=
  match s with
  | [] => []
  | c :: s' => if isTrimmable c then trimStart s' else s
  end.

Definition trimEnd (s : jsstring) : jsstring :=
  reverse (trimStart (reverse s)).

(** [String.prototype.trim] *)
Definition trim (s : jsstring) : jsstring :=
  trimEnd (trimStart s).

(** ** JavaScript values, as [JSON.parse] and property reads produce them *)

#[warnings="-register-all"]
Inductive jsvalue : Type :=
  | VUndefined
  | VNull
  | VBool (b : bool)
  | VNum (x : float)
  | VStr (s : jsstring)
  | VArr (elems : list jsvalue)
  | VObj (props : list (jsstring * jsvalue)).

(** [ToBoolean] on strings: only the empty string is falsy. *)
Definition truthyString (s : jsstring) : bool :=
  match s with [] => false | _ :: _ => true end.

(** [ToBoolean]: [undefined], [null], [false], [0], [-0], [NaN] and the
    empty string are falsy, everything else is truthy. *)
Definition truthy (v : jsvalue) : bool :=
  match v with
  | VUndefined | VNull => false
  | VBool b => b
  | VNum x => negb (PrimFloat.eqb x 0 || negb (PrimFloat.eqb x x))
  | VStr s => truthyString s
  | VArr _ | VObj _ => true
  end.

(** [a || b] *)
Definition js_or (a b : jsvalue) : jsvalue :=
  if truthy a then a else b.

(** What a [catch] clause can receive: an instance of [Error] with its
    [message], or any other value. *)
Inductive thrown : Type :=
  | ErrorObject (message : jsstring)
  | NotAnError (v : jsvalue).

(** The own property [k] of an object literal; [undefined] when it has
    none. *)
Fixpoint ownProp (props : list (jsstring * jsvalue)) (k : jsstring) : jsvalue :=
  match props with
  | [] => VUndefined
  | (k', v) :: rest => if bool_decide (k' = k) then v else ownProp rest k
  end.

(** The names of the own properties, in order. *)
Definition keys (props : list (jsstring * jsvalue)) : list jsstring :=
  fst <$> props.

(** ** The types the component declares *)

(** [type SearchMode = 'story' | 'personality' | 'resume'] *)
Inductive SearchMode : Type := Story | Personality | Resume.

(** The string each mode is at run time. *)
Definition modeName (m : SearchMode) : jsstring :=
  match m with
  | Story => lit "story"
  | Personality => lit "personality"
  | Resume => lit "resume"
  end.

(** [type SearchResult]: [filename] and [score] are required, the three
    text fields are optional. A text field is [None] when the component
    finds nothing to show under its name (see [asOptionalString]). *)
Record SearchResult : Type := {
  filename : jsstring;
  score : float;
  story : option jsstring;
  personality : option jsstring;
  rawText : option jsstring
}.

(** What the component finds under an optional string property
    [p?: string]. It reads the property where it uses it, and every use
    tests it first ([!content], [candidate.p && ...]): a string is the
    text; a missing property, [null] (what a backend sends for a field it
    does not have) and [false] fail the test and put nothing on screen,
    like an absent field. Other values ([0], which [&&] would print, and
    truthy values that are not strings) are not strings to the code
    either, and the typed functions below do not model them. *)
Definition asOptionalString (v : jsvalue) : option (option jsstring) :=
  match v with
  | VUndefined | VNull | VBool false => Some None
  | VStr s => Some (Some s)
  | _ => None
  end.

(** What [result.score * 100] multiplies: [ToNumber] of the property, on
    the values where it is a case of the definition: a number is itself,
    a missing property is [NaN], [null] and [false] are [0], [true] is
    [1]. ([ToNumber] of a string, an array or an object is not
    modelled.) *)
Definition asScore (v : jsvalue) : option float :=
  match v with
  | VNum x => Some x
  | VUndefined => Some PrimFloat.nan
  | VNull | VBool false => Some 0%float
  | VBool true => Some 1%float
  | _ => None
  end.

(** The property names [SearchResult] declares, which are the ones the
    component reads from a result record. *)
Definition consumedKeys : list jsstring :=
  [lit "filename"; lit "score"; lit "story"; lit "personality"; lit "rawText"].

(** An element of the response as the component reads it: through the
    five properties [result.filename], [result.score], [result.story],
    [result.personality] and [result.rawText], and no other. [None] when
    a property holds a value the typed functions do not model (a
    [filename] that is not a string, and the cases left out by
    [asOptionalString] and [asScore]), and on [null], where reading a
    property throws. *)
Definition asSearchResult (v : jsvalue) : option SearchResult :=
  match v with
  | VObj props =>
      match ownProp props (lit "filename") with
      | VStr f =>
          sc ← asScore (ownProp props (lit "score"));
          st ← asOptionalString (ownProp props (lit "story"));
          pe ← asOptionalString (ownProp props (lit "personality"));
          rt ← asOptionalString (ownProp props (lit "rawText"));
          Some {| filename := f; score := sc; story := st;
                  personality := pe; rawText := rt |}
      | _ => None
      end
  | _ => None
  end.

(** The result list as [results.map] walks it: an array, element by
    element in order. *)
Definition asSearchResults (v : jsvalue) : option (list SearchResult) :=
  match v with
  | VArr elems => mapM asSearchResult elems
  | _ => None
  end.

(** ** The host: what the component imports from its environment *)

(** The arguments of the one [fetch] call of the component. [body] is the
    object handed to [JSON.stringify]. *)
Record FetchCall : Type := {
  url : jsstring;
  method : jsstring;
  headers : list (jsstring * jsstring);
  body : jsvalue
}.

(** A [Response]: [ok], [status], and what [await response.text()] gives. *)
Record Response : Type := {
  ok : bool;
  status : Z;
  text : thrown + jsstring
}.

Record Host : Type := {
  (** [import.meta.env.VITE_API_URL], as the template literal prints it *)
  VITE_API_URL : jsstring;
  (** [await fetch(url, init)]: a rejection, or a response *)
  fetch : FetchCall → thrown + Response;
  (** [JSON.parse]: a [SyntaxError], or the value *)
  JSON_parse : jsstring → thrown + jsvalue;
  (** the message of the [TypeError] the engine throws on reading a
      property of [null] or [undefined] *)
  nullReadMessage : jsvalue → jsstring → jsstring
}.

(** [v.k] for a property name [k] that no built-in prototype defines
    (the component reads [results] this way): a [TypeError] on [null] and
    [undefined], the own property on an object, [undefined] otherwise. *)
Definition getProp (host : Host) (v : jsvalue) (k : jsstring) : thrown + jsvalue :=
  match v with
  | VUndefined | VNull => inl (ErrorObject (nullReadMessage host v k))
  | VObj props => inr (ownProp props k)
  | _ => inr VUndefined
  end.

(** ** Component state: one field per [useState] *)

Record State : Type := {
  mode : SearchMode;
  query : jsstring;
  (** declared [SearchResult[]]; holds what [setResults] was given *)
  results : jsvalue;
  loading : bool;
  error : option jsstring;
  expandedResults : gset nat;
  savedCandidates : list SearchResult;
  selectedCandidate : option SearchResult;
  isModalOpen : bool
}.

Definition initialState : State := {|
  mode := Story; query := []; results := VArr []; loading := false;
  error := None; expandedResults := ∅; savedCandidates := [];
  selectedCandidate := None; isModalOpen := false
|}.

Definition setMode (m : SearchMode) (s : State) : State :=
  {| mode := m; query := query s; results := results s; loading := loading s;
     error := error s; expandedResults := expandedResults s;
     savedCandidates := savedCandidates s;
     selectedCandidate := selectedCandidate s; isModalOpen := isModalOpen s |}.

Definition setQuery (q : jsstring) (s : State) : State :=
  {| mode := mode s; query := q; results := results s; loading := loading s;
     error := error s; expandedResults := expandedResults s;
     savedCandidates := savedCandidates s;
     selectedCandidate := selectedCandidate s; isModalOpen := isModalOpen s |}.

Definition setResults (r : jsvalue) (s : State) : State :=
  {| mode := mode s; query := query s; results := r; loading := loading s;
     error := error s; expandedResults := expandedResults s;
     savedCandidates := savedCandidates s;
     selectedCandidate := selectedCandidate s; isModalOpen := isModalOpen s |}.

Definition setLoading (b : bool) (s : State) : State :=
  {| mode := mode s; query := query s; results := results s; loading := b;
     error := error s; expandedResults := expandedResults s;
     savedCandidates := savedCandidates s;
     selectedCandidate := selectedCandidate s; isModalOpen := isModalOpen s |}.

Definition setError (e : option jsstring) (s : State) : State :=
  {| mode := mode s; query := query s; results := results s; loading := loading s;
     error := e; expandedResults := expandedResults s;
     savedCandidates := savedCandidates s;
     selectedCandidate := selectedCandidate s; isModalOpen := isModalOpen s |}.

Definition setExpandedResults (x : gset nat) (s : State) : State :=
  {| mode := mode s; query := query s; results := results s; loading := loading s;
     error := error s; expandedResults := x;
     savedCandidates := savedCandidates s;
     selectedCandidate := selectedCandidate s; isModalOpen := isModalOpen s |}.

Definition setSavedCandidates (l : list SearchResult) (s : State) : State :=
  {| mode := mode s; query := query s; results := results s; loading := loading s;
     error := error s; expandedResults := expandedResults s;
     savedCandidates := l;
     selectedCandidate := selectedCandidate s; isModalOpen := isModalOpen s |}.

Definition setSelectedCandidate (c : option SearchResult) (s : State) : State :=
  {| mode := mode s; query := query s; results := results s; loading := loading s;
     error := error s; expandedResults := expandedResults s;
     savedCandidates := savedCandidates s;
     selectedCandidate := c; isModalOpen := isModalOpen s |}.

Definition setIsModalOpen (b : bool) (s : State) : State :=
  {| mode := mode s; query := query s; results := results s; loading := loading s;
     error := error s; expandedResults := expandedResults s;
     savedCandidates := savedCandidates s;
     selectedCandidate := selectedCandidate s; isModalOpen := b |}.

(** ** Effects of the [async] function *)

(** What [searchResumes] writes to the console. *)
Inductive ConsoleMessage : Type :=
  | MakingSearchRequest (requestBody : jsvalue)
  | ResponseStatus (status : Z)
  | ResponseText (responseText : jsstring)
  | SearchError (e : thrown).

(** A call that leaves the component. The only network call is [fetch]. *)
Inductive Event : Type :=
  | EvFetch (call : FetchCall)
  | EvConsole (m : ConsoleMessage).

Definition isFetch (ev : Event) : bool :=
  match ev with EvFetch _ => true | EvConsole _ => false end.

(** A computation reads and writes the state slots, appends to the log
    of events, and either returns or throws. *)
Definition Async (A : Type) : Type :=
  State → list Event → (thrown + A) * State * list Event.

Definition ret {A} (a : A) : Async A := λ s l, (inr a, s, l).

Definition throw {A} (e : thrown) : Async A := λ s l, (inl e, s, l).

Definition bind {A B} (m : Async A) (k : A → Async B) : Async B := λ s l,
  match m s l with
  | (inl e, s', l') => (inl e, s', l')
  | (inr a, s', l') => k a s' l'
  end.

(** [await] of a promise the host has settled. *)
Definition await {A} (r : thrown + A) : Async A := λ s l, (r, s, l).

Definition emit (ev : Event) : Async unit := λ s l, (inr tt, s, l ++ [ev]).

(** A [useState] setter. *)
Definition set (f : State → State) : Async unit := λ s l, (inr tt, f s, l).

(** [try { body } catch (e) { handler e } finally { final }] *)
Definition try_catch_finally {A} (body : Async A) (handler : thrown → Async A)
    (final : Async unit) : Async A := λ s l,
  let '(r, s1, l1) :=
    match body s l with
    | (inl e, s', l') => handler e s' l'
    | (inr a, s', l') => (inr a, s', l')
    end in
  match final s1 l1 with
  | (inl e, s2, l2) => (inl e, s2, l2)
  | (inr _, s2, l2) => (r, s2, l2)
  end.

Declare Scope async_scope.
Delimit Scope async_scope with async.
Notation "x <- m ;; k" := (bind m (λ x, k))
  (at level 100, m at next level, right associativity) : async_scope.
Notation "m ;; k" := (bind m (λ _, k))
  (at level 100, right associativity) : async_scope.

(** ** [searchResumes], lines 79-123 of part_001 (27-71 of part_000) *)

(** [error instanceof Error ? error.message : 'An unknown error occurred'] *)
Definition errorMessage (e : thrown) : jsstring :=
  match e with
  | ErrorObject message => message
  | NotAnError _ => lit "An unknown error occurred"
  end.

(** [{ query: query.trim(), mode: mode }] *)
Definition requestBody (query : jsstring) (mode : SearchMode) : jsvalue :=
  VObj [ (lit "query", VStr (trim query)); (lit "mode", VStr (modeName mode)) ].

Definition searchCall (host : Host) (query : jsstring) (mode : SearchMode) : FetchCall :=
  {| url := VITE_API_URL host ++ lit "/search";
     method := lit "POST";
     headers := [ (lit "Content-Type", lit "application/json");
                  (lit "Accept", lit "application/json") ];
     body := requestBody query mode |}.

(** The closure the effect creates: [query] and [mode] are the values of
    the render that scheduled it. *)
Definition searchResumes (host : Host) (query : jsstring) (mode : SearchMode)
    : Async unit :=
  (set (setError None) ;;
   if bool_decide (trim query = [])
   then
     set (setResults (VArr []))
   else
     set (setLoading true) ;;
     try_catch_finally
       (emit (EvConsole (MakingSearchRequest (requestBody query mode))) ;;
        emit (EvFetch (searchCall host query mode)) ;;
        response <- await (fetch host (searchCall host query mode)) ;;
        emit (EvConsole (ResponseStatus (status response))) ;;
        responseText <- await (text response) ;;
        emit (EvConsole (ResponseText responseText)) ;;
        (if negb (ok response)
         then throw (ErrorObject (lit "API Error: " ++ responseText))
         else ret tt) ;;
        data <- await (JSON_parse host responseText) ;;
        found <- await (getProp host data (lit "results")) ;;
        set (setResults (js_or found (VArr []))))
       (λ e,
        emit (EvConsole (SearchError e)) ;;
        set (setError (Some (errorMessage e))) ;;
        set (setResults (VArr [])))
       (set (setLoading false)))%async.

(** One run of the closure from state [s]: the state it leaves and the
    events it caused, in order. *)
Definition runSearch (host : Host) (q : jsstring) (m : SearchMode) (s : State)
    : State * list Event :=
  let '(_, s', l) := searchResumes host q m s [] in (s', l).

(** How the request of one run settles. It fails when [fetch] rejects,
    when reading the body rejects, when the response is not [ok] (the
    component throws its own [Error]), when [JSON.parse] throws, or when
    reading [data.results] throws; the thrown value is what [catch]
    receives. *)
Inductive RequestFails (host : Host) (call : FetchCall) : thrown → Prop :=
  | fails_fetch e :
      fetch host call = inl e → RequestFails host call e
  | fails_text r e :
      fetch host call = inr r → text r = inl e → RequestFails host call e
  | fails_not_ok r t :
      fetch host call = inr r → text r = inr t → ok r = false →
      RequestFails host call (ErrorObject (lit "API Error: " ++ t))
  | fails_parse r t e :
      fetch host call = inr r → text r = inr t → ok r = true →
      JSON_parse host t = inl e → RequestFails host call e
  | fails_read r t data e :
      fetch host call = inr r → text r = inr t → ok r = true →
      JSON_parse host t = inr data →
      getProp host data (lit "results") = inl e → RequestFails host call e.

(** It succeeds with [found] when the response is [ok], its body parses
    to [data], and [data.results] is [found]. *)
Inductive RequestSucceeds (host : Host) (call : FetchCall) : jsvalue → Prop :=
  | succeeds r t data found :
      fetch host call = inr r → text r = inr t → ok r = true →
      JSON_parse host t = inr data →
      getProp host data (lit "results") = inr found →
      RequestSucceeds host call found.

(** ** Event handlers of the component *)

Global Instance SearchMode_eq_dec : EqDecision SearchMode.
Proof. solve_decision. Defined.

(** [toggleExpanded], lines 129-137 *)
Definition toggleExpanded (index : nat) (s : State) : State :=
  let newExpanded := expandedResults s in
  setExpandedResults
    (if bool_decide (index ∈ newExpanded)
     then newExpanded ∖ {[index]}
     else newExpanded ∪ {[index]}) s.

(** [savedCandidates.some(saved => saved.filename === name)] *)
Definition isSaved (name : jsstring) (s : State) : bool :=
  existsb (λ saved, bool_decide (filename saved = name)) (savedCandidates s).

(** [saveCandidate], lines 139-143 (87-91 of part_000) *)
Definition saveCandidate (candidate : SearchResult) (s : State) : State :=
  if negb (isSaved (filename candidate) s)
  then setSavedCandidates (savedCandidates s ++ [candidate]) s
  else s.

(** [removeCandidate], lines 145-147 *)
Definition removeCandidate (name : jsstring) (s : State) : State :=
  setSavedCandidates
    (filter (λ candidate, filename candidate ≠ name) (savedCandidates s)) s.

(** ** Rendering *)

Inductive Toggle : Type := ShowMore | ShowLess.

(** What [renderResultContent] returns when it is not [null]: the text
    given to [ReactMarkdown], and the button below it when there is one. *)
Record ContentView : Type := {
  markdown : jsstring;
  toggle : option Toggle
}.

(** The [switch (mode)] of [renderResultContent]. *)
Definition modeContent (m : SearchMode) (result : SearchResult) : option jsstring :=
  match m with
  | Story => story result
  | Personality => personality result
  | Resume => rawText result
  end.

(** [renderResultContent], lines 149-199 (93-143 of part_000) *)
Definition renderResultContent (s : State) (result : SearchResult) (index : nat)
    : option ContentView :=
  let isExpanded := bool_decide (index ∈ expandedResults s) in
  match modeContent (mode s) result with
  | None => None
  | Some content =>
      if negb (truthyString content) then None
      else
        let truncatedContent :=
          if (400 <? length content) && negb isExpanded
          then take 400 content ++ lit "..."
          else content in
        Some {| markdown := truncatedContent;
                toggle := if 400 <? length content
                          then Some (if isExpanded then ShowLess else ShowMore)
                          else None |}
  end.

(** The text a rendered body puts on screen; [null] shows nothing. *)
Definition shownText (v : option ContentView) : jsstring :=
  match v with Some c => markdown c | None => [] end.

(** [{field && <div><h3>heading</h3> ... {field} ... </div>}] *)
Definition textSection (heading : string) (field : option jsstring)
    : list (jsstring * jsstring) :=
  match field with
  | Some t => if truthyString t then [(lit heading, t)] else []
  | None => []
  end.

(** The details of one candidate: the heading and the sections shown,
    each with its title and its text. *)
Record DetailsView : Type := {
  details_title : jsstring;
  details_sections : list (jsstring * jsstring)
}.

Definition candidateDetails (candidate : SearchResult) : DetailsView :=
  {| details_title := filename candidate;
     details_sections :=
       textSection "Resume + Story + Personality" (rawText candidate)
       ++ textSection "Personality" (personality candidate)
       ++ textSection "Story" (story candidate) |}.

(** [Modal], lines 16-65 *)
Definition Modal (isOpen : bool) (candidate : option SearchResult)
    : option DetailsView :=
  if negb isOpen then None
  else match candidate with
       | None => None
       | Some c => Some (candidateDetails c)
       end.

(** One result card, lines 269-316. [card_percent] is [result.score * 100],
    which the host prints with [toFixed(1)]. *)
Record Card : Type := {
  card_filename : jsstring;
  card_percent : float;
  card_bookmarked : bool;
  card_body : option ContentView
}.

Definition renderCard (s : State) (index : nat) (result : SearchResult) : Card :=
  {| card_filename := filename result;
     card_percent := PrimFloat.mul (score result) 100;
     card_bookmarked := isSaved (filename result) s;
     card_body := renderResultContent s result index |}.

Inductive MainView : Type :=
  | Spinner
  | Cards (cards : list Card).

(** What [ResumeSearch] returns, lines 201-359. *)
Record View : Type := {
  (** [{error && <div>{error}</div>}] *)
  banner : option jsstring;
  (** [{loading ? spinner : results.map(...)}] *)
  main : MainView;
  (** [{savedCandidates.length > 0 && ...}]: the saved filenames *)
  savedPanel : option (list jsstring);
  modal : option DetailsView
}.

Definition renderBanner (s : State) : option jsstring :=
  match error s with
  | Some message => if truthyString message then Some message else None
  | None => None
  end.

(** [{savedCandidates.length > 0 && ...}], lines 322-350: the filenames
    of the saved candidates, in the order of the list. *)
Definition renderSavedPanel (s : State) : option (list jsstring) :=
  if bool_decide (0 < length (savedCandidates s))
  then Some (filename <$> savedCandidates s) else None.

(** Where the real render throws: the list is shown and [results] is not
    an array ([results.map] is not a function), or an element is [null]
    or [undefined] ([result.filename] throws). *)
Definition renderThrows (s : State) : bool :=
  negb (loading s)
  && match results s with
     | VArr elems =>
         existsb (λ v, match v with VUndefined | VNull => true | _ => false end)
           elems
     | _ => true
     end.

(** The spinner, or one card per element of [results]. [None] when the
    real render throws ([renderThrows]) and when an element is not read
    by [asSearchResult]. *)
Definition renderMain (s : State) : option MainView :=
  if loading s then Some Spinner
  else cards ← asSearchResults (results s); Some (Cards (imap (renderCard s) cards)).

Definition render (s : State) : option View :=
  m ← renderMain s;
  Some {| banner := renderBanner s;
          main := m;
          savedPanel := renderSavedPanel s;
          modal := Modal (isModalOpen s) (selectedCandidate s) |}.

(** ** The component as a transition system *)

(** What the user, or the debounce timer, can do to the mounted
    component. *)
Inductive UIEvent : Type :=
  | ClickMode (m : SearchMode)
  | ChangeQuery (value : jsstring)
  | ClickViewDetails (candidate : SearchResult)
  | ClickBookmark (result : SearchResult)
  | ClickSavedBookmark (candidate : SearchResult)
  | ClickShowMoreLess (index : nat)
  | ClickCloseModal
  | DebounceElapsed.

(** The [onClick] and [onChange] handlers of the JSX. *)
Definition handle (ev : UIEvent) (s : State) : State :=
  match ev with
  | ClickMode m => setMode m s
  | ChangeQuery value => setQuery value s
  | ClickViewDetails candidate =>
      setIsModalOpen true (setSelectedCandidate (Some candidate) s)
  | ClickBookmark result =>
      if isSaved (filename result) s
      then removeCandidate (filename result) s
      else saveCandidate result s
  | ClickSavedBookmark candidate => removeCandidate (filename candidate) s
  | ClickShowMoreLess index => toggleExpanded index s
  | ClickCloseModal => setIsModalOpen false s
  | DebounceElapsed => s
  end.

(** The mounted component: its state, the closure the 300 ms timer holds
    (if one is pending), and the events so far. *)
Record Component : Type := {
  state : State;
  pending : option (jsstring * SearchMode);
  trace : list Event
}.

(** After the first render the effect has set its timer. *)
Definition mounted : Component :=
  {| state := initialState; pending := Some (query initialState, mode initialState);
     trace := [] |}.

(** [useEffect(..., [query, mode])]: the effect runs again when a
    dependency changed. *)
Definition depsChanged (s s' : State) : bool :=
  negb (bool_decide (query s = query s') && bool_decide (mode s = mode s')).

(** One step. A handler changes the state; if [query] or [mode] changed,
    the cleanup clears the timer and the effect sets a new one. When the
    timer fires, [searchResumes] runs. Here the run is taken from its call
    to its end within the step: this is the session in which the answer
    comes before the next event, one schedule among those of [liveStep]
    below, where the run stops at each [await] and other events come in
    between ([liveRun_uninterrupted]). *)
Definition step (host : Host) (c : Component) (ev : UIEvent) : Component :=
  match ev with
  | DebounceElapsed =>
      match pending c with
      | Some (q, m) =>
          let '(s', l) := runSearch host q m (state c) in
          {| state := s'; pending := None; trace := trace c ++ l |}
      | None => c
      end
  | _ =>
      let s' := handle ev (state c) in
      {| state := s';
         pending := if depsChanged (state c) s'
                    then Some (query s', mode s') else pending c;
         trace := trace c |}
  end.

(** A session: the events in order, each with the host as it behaves at
    that moment (the network need not answer the same request the same
    way twice). *)
Definition run (script : list (Host * UIEvent)) : Component :=
  foldl (λ c he, step he.1 c he.2) mounted script.

(** The invariant of the trace: every [fetch] in it is a [searchCall] on
    a query that is not empty after trimming. *)
Definition sentBySearch (l : list Event) : Prop :=
  ∀ call, EvFetch call ∈ l →
    ∃ host q m, trim q ≠ [] ∧ call = searchCall host q m.

(** ** The earlier copy of the component (part_000)

    It has the same state (without the modal flag, which stays [false]),
    the same [searchResumes], [toggleExpanded], [saveCandidate] and
    [renderResultContent]; it has no [removeCandidate], its bookmark
    button only saves, and the details of the selected candidate are
    shown in a side panel instead of a modal. *)
Module Part000.

Inductive UIEvent : Type :=
  | ClickMode (m : SearchMode)
  | ChangeQuery (value : jsstring)
  | ClickViewDetails (candidate : SearchResult)
  | ClickBookmark (result : SearchResult)
  | ClickShowMoreLess (index : nat)
  | DebounceElapsed.

Definition handle (ev : UIEvent) (s : State) : State :=
  match ev with
  | ClickMode m => setMode m s
  | ChangeQuery value => setQuery value s
  | ClickViewDetails candidate => setSelectedCandidate (Some candidate) s
  | ClickBookmark result => saveCandidate result s
  | ClickShowMoreLess index => toggleExpanded index s
  | DebounceElapsed => s
  end.

(** [{selectedCandidate && <div> ... </div>}], lines 246-279 *)
Definition DetailsPanel (selectedCandidate : option SearchResult)
    : option DetailsView :=
  match selectedCandidate with
  | Some c => Some (candidateDetails c)
  | None => None
  end.

(** One step, as for the current component: the run of [searchResumes]
    is taken from its call to its end within the step, which is the
    session in which the answer comes before the next event. *)
Definition step (host : Host) (c : Component) (ev : UIEvent) : Component :=
  match ev with
  | DebounceElapsed =>
      match pending c with
      | Some (q, m) =>
          let '(s', l) := runSearch host q m (state c) in
          {| state := s'; pending := None; trace := trace c ++ l |}
      | None => c
      end
  | _ =>
      let s' := handle ev (state c) in
      {| state := s';
         pending := if depsChanged (state c) s'
                    then Some (query s', mode s') else pending c;
         trace := trace c |}
  end.

Definition run (script : list (Host * UIEvent)) : Component :=
  foldl (λ c he, step he.1 c he.2) mounted script.

End Part000.

(** ** The search service behind [/search]

    The backend ([api.py], [semantic_ats.py]) is not among the sources;
    this module follows sections 3, 4.3 and 4.4 of the specification. *)
Module Backend.

(** Modelled from the spec: the three named vectors of a point (section 3;
    the vector store code is missing). *)
Inductive VectorName : Type := story_vector | personality_vector | resume_vector.

(** Modelled from the spec: the non-vector fields of a Candidate Record
    (section 3): [raw_text] always, the two narratives when their
    extraction succeeded. *)
Record Payload : Type := {
  pl_filename : jsstring;
  raw_text : jsstring;
  story_text : option jsstring;
  personality_text : option jsstring
}.

(** Modelled from the spec: section 4.4, "Map mode to vector name". *)
Definition vectorOf (m : SearchMode) : VectorName :=
  match m with
  | Story => story_vector
  | Personality => personality_vector
  | Resume => resume_vector
  end.

(** Modelled from the spec: one record of the response (section 6): the
    filename, the score, and the three text fields when present. *)
Record ResultRecord : Type := {
  r_filename : jsstring;
  r_score : float;
  r_story : option jsstring;
  r_personality : option jsstring;
  r_raw_text : option jsstring
}.

Section Store.

(** The embedding space and its similarity (cosine, scaled to [0,1]). *)
Variable Vector : Type.
Variable similarity : Vector → Vector → float.

(** Modelled from the spec: a point of the collection (section 4.3): a
    key, a payload, and up to three named vectors. *)
Record Point : Type := {
  id : jsstring;
  payload : Payload;
  vectors : VectorName → option Vector
}.

(** Modelled from the spec: one hit of [search], [(id, score, payload)]. *)
Record Hit : Type := {
  hit_id : jsstring;
  hit_score : float;
  hit_payload : Payload
}.

(** Modelled from the spec: the query vector is compared only with the
    named vector; a point without it gives no hit. *)
Definition scorePoint (vector_name : VectorName) (query_vector : Vector)
    (p : Point) : option Hit :=
  v ← vectors p vector_name;
  Some {| hit_id := id p; hit_score := similarity query_vector v;
          hit_payload := payload p |}.

(** Modelled from the spec: the optional [score_threshold]. *)
Definition passes (score_threshold : option float) (h : Hit) : bool :=
  match score_threshold with
  | Some t => PrimFloat.leb t (hit_score h)
  | None => true
  end.

(** Modelled from the spec: descending similarity, ties in insertion
    order: a hit goes before the first one that scores strictly less. *)
Fixpoint insertHit (h : Hit) (sorted : list Hit) : list Hit :=
  match sorted with
  | [] => [h]
  | h' :: rest =>
      if PrimFloat.ltb (hit_score h') (hit_score h)
      then h :: sorted
      else h' :: insertHit h rest
  end.

(** Modelled from the spec: the hits in result order, each inserted in
    turn, so equal scores keep their insertion order. *)
Definition sortHits (hits : list Hit) : list Hit :=
  foldl (λ acc h, insertHit h acc) [] hits.

(** Modelled from the spec: [search(vector_name, query_vector, limit,
    score_threshold?)] of the Vector Store Manager (section 4.3). *)
Definition search (store : list Point) (vector_name : VectorName)
    (query_vector : Vector) (limit : nat) (score_threshold : option float)
    : list Hit :=
  take limit
    (sortHits (filter (λ h, passes score_threshold h = true)
                 (omap (scorePoint vector_name query_vector) store))).

(** The embedding call for a query ([None]: the provider failed) and the
    fixed top-K of the service. *)
Variable embedQuery : jsstring → option Vector.
Variable topK : nat.

(** Modelled from the spec: the external calls of the service, which
    are the embedding of the query and the vector search. *)
Inductive Call : Type :=
  | CallEmbed (query_text : jsstring)
  | CallSearch (vector_name : VectorName).

(** Modelled from the spec: "Assemble results" (section 4.4). *)
Definition assemble (h : Hit) : ResultRecord :=
  {| r_filename := pl_filename (hit_payload h);
     r_score := hit_score h;
     r_story := story_text (hit_payload h);
     r_personality := personality_text (hit_payload h);
     r_raw_text := Some (raw_text (hit_payload h)) |}.

(** Modelled from the spec: the Query Router / Search Service (section
    4.4). [None] is a failed request; the list is the calls it made. *)
Definition search_service (store : list Point) (query_text : jsstring)
    (m : SearchMode) : option (list ResultRecord) * list Call :=
  if bool_decide (trim query_text = []) then (Some [], [])
  else
    match embedQuery query_text with
    | None => (None, [CallEmbed query_text])
    | Some query_vector =>
        (Some (assemble <$> search store (vectorOf m) query_vector topK None),
         [CallEmbed query_text; CallSearch (vectorOf m)])
    end.

End Store.

End Backend.

(** ** Counting what a session does *)

(** The events that change a dependency of the effect: a click on a mode
    button and a change of the input. *)
Definition changesSearchInput (ev : UIEvent) : bool :=
  match ev with
  | ClickMode _ | ChangeQuery _ => true
  | _ => false
  end.

(** The number of [fetch] calls in a trace. *)
Definition fetchCount (l : list Event) : nat :=
  length (filter (λ ev, isFetch ev = true) l).

(** The requests the pending timer will cause when it fires: one if its
    query is not empty after trimming, none otherwise. *)
Definition owed (c : Component) : nat :=
  match pending c with
  | Some (q, _) => if bool_decide (trim q = []) then 0 else 1
  | None => 0
  end.

(** ** The page around the component ([App.tsx]) *)
Module App.

(** [DOMTokenList.add]: the token is appended unless it is there. *)
Definition tokenAdd (token : jsstring) (tokens : list jsstring) : list jsstring :=
  if bool_decide (token ∈ tokens) then tokens else tokens ++ [token].

(** [DOMTokenList.remove] *)
Definition tokenRemove (token : jsstring) (tokens : list jsstring) : list jsstring :=
  filter (λ t, t ≠ token) tokens.

(** The [darkMode] slot of [App], and the class list of
    [document.documentElement]. *)
Record Page : Type := {
  darkMode : bool;
  classList : list jsstring
}.

(** The body of the effect, lines 9-15 of [App.tsx]. *)
Definition applyTheme (darkMode : bool) (classList : list jsstring)
    : list jsstring :=
  if darkMode then tokenAdd (lit "dark") classList
  else tokenRemove (lit "dark") classList.

(** The first render: [useState(false)], then the effect runs on the
    class list the document came with. *)
Definition mount (classList0 : list jsstring) : Page :=
  {| darkMode := false; classList := applyTheme false classList0 |}.

(** A click on the header button: [setDarkMode(!darkMode)]; [darkMode]
    changed, so the effect runs again. *)
Definition clickToggle (p : Page) : Page :=
  {| darkMode := negb (darkMode p);
     classList := applyTheme (negb (darkMode p)) (classList p) |}.

End App.

(** ** Runs that overlap

    [searchResumes] is an [async] function: it gives the control back at
    [await fetch(...)] and at [await response.text()], and goes on when
    the promise settles. In between the user can type, click, and other
    runs can start and end; a run that goes on writes to the state as it
    is then. The three pieces of the function, cut at the two [await]s,
    are below; [live_uninterrupted] shows that run one after the other
    they are [searchResumes]. *)

(** A run stopped at an [await]. *)
Inductive Suspended : Type :=
  | AtFetch (call : FetchCall)
  | AtText (response : Response).

(** The [catch] block, lines 116-119. *)
Definition searchCatch (e : thrown) : Async unit :=
  (emit (EvConsole (SearchError e)) ;;
   set (setError (Some (errorMessage e))) ;;
   set (setResults (VArr [])))%async.

(** The [finally] block, lines 120-122. *)
Definition searchFinally : Async unit := set (setLoading false).

(** From the call of the closure to [await fetch(...)], lines 80-104. *)
Definition searchBegin (host : Host) (query : jsstring) (mode : SearchMode)
    : Async (option Suspended) :=
  (set (setError None) ;;
   if bool_decide (trim query = [])
   then
     set (setResults (VArr [])) ;;
     ret None
   else
     set (setLoading true) ;;
     emit (EvConsole (MakingSearchRequest (requestBody query mode))) ;;
     emit (EvFetch (searchCall host query mode)) ;;
     ret (Some (AtFetch (searchCall host query mode))))%async.

(** From the settling of [fetch] to [await response.text()], lines
    97-107: a rejection goes to [catch] and [finally]. *)
Definition searchOnFetch (settled : thrown + Response)
    : Async (option Suspended) :=
  match settled with
  | inl e =>
      (try_catch_finally (throw e) searchCatch searchFinally ;;
       ret None)%async
  | inr response =>
      (emit (EvConsole (ResponseStatus (status response))) ;;
       ret (Some (AtText response)))%async
  end.

(** From the settling of [response.text()] to the end, lines 107-122. *)
Definition searchOnText (host : Host) (response : Response)
    (settled : thrown + jsstring) : Async unit :=
  try_catch_finally
    (responseText <- await settled ;;
     emit (EvConsole (ResponseText responseText)) ;;
     (if negb (ok response)
      then throw (ErrorObject (lit "API Error: " ++ responseText))
      else ret tt) ;;
     data <- await (JSON_parse host responseText) ;;
     found <- await (getProp host data (lit "results")) ;;
     set (setResults (js_or found (VArr []))))%async
    searchCatch
    searchFinally.

(** The component with the runs that are under way. *)
Record Live : Type := {
  now : Component;
  inflight : list Suspended
}.

(** What happens next: the user or the timer does something, or the
    promise that run [i] waits for settles. *)
Inductive LiveEvent : Type :=
  | User (ev : UIEvent)
  | Settles (i : nat).

(** One step. The timer starts a run, which goes as far as its first
    [await]; [Settles i] takes run [i] to its next [await] or to its end,
    with what the host answers at that moment. A run writes to the state
    of the moment, not to the state it started from. *)
Definition liveStep (host : Host) (l : Live) (ev : LiveEvent) : Live :=
  match ev with
  | User DebounceElapsed =>
      match pending (now l) with
      | Some (q, m) =>
          let '(r, s', tr) :=
            searchBegin host q m (state (now l)) (trace (now l)) in
          {| now := {| state := s'; pending := None; trace := tr |};
             inflight := inflight l
                         ++ match r with
                            | inr (Some run) => [run]
                            | _ => []
                            end |}
      | None => l
      end
  | User ev =>
      {| now := step host (now l) ev; inflight := inflight l |}
  | Settles i =>
      match inflight l !! i with
      | Some (AtFetch call) =>
          let '(r, s', tr) :=
            searchOnFetch (fetch host call) (state (now l)) (trace (now l)) in
          {| now := {| state := s'; pending := pending (now l); trace := tr |};
             inflight := match r with
                         | inr (Some run) => <[i := run]> (inflight l)
                         | _ => delete i (inflight l)
                         end |}
      | Some (AtText response) =>
          let '(_, s', tr) :=
            searchOnText host response (text response)
              (state (now l)) (trace (now l)) in
          {| now := {| state := s'; pending := pending (now l); trace := tr |};
             inflight := delete i (inflight l) |}
      | None => l
      end
  end.

Definition liveMounted : Live := {| now := mounted; inflight := [] |}.

Definition liveRun (script : list (Host * LiveEvent)) : Live :=
  foldl (λ l he, liveStep he.1 l he.2) liveMounted script.

(** The session in which no run is overtaken: each firing of the timer
    is followed at once by the two settlings of its run. *)
Definition uninterrupted (script : list (Host * UIEvent))
    : list (Host * LiveEvent) :=
  script ≫= λ he,
    match he.2 with
    | DebounceElapsed =>
        [(he.1, User DebounceElapsed); (he.1, Settles 0); (he.1, Settles 0)]
    | ev => [(he.1, User ev)]
    end.

(** How the step of a run that waits for the body ends: with a thrown
    value (the body cannot be read, the response is not [ok],
    [JSON.parse] throws, reading [data.results] throws) ... *)
Inductive BodyFails (host : Host) (response : Response) : thrown → Prop :=
  | body_text e :
      text response = inl e → BodyFails host response e
  | body_not_ok t :
      text response = inr t → ok response = false →
      BodyFails host response (ErrorObject (lit "API Error: " ++ t))
  | body_parse t e :
      text response = inr t → ok response = true →
      JSON_parse host t = inl e → BodyFails host response e
  | body_read t data e :
      text response = inr t → ok response = true →
      JSON_parse host t = inr data →
      getProp host data (lit "results") = inl e → BodyFails host response e.

(** ... or with the value of [data.results]. *)
Inductive BodySucceeds (host : Host) (response : Response) : jsvalue → Prop :=
  | body_found t data found :
      text response = inr t → ok response = true →
      JSON_parse host t = inr data →
      getProp host data (lit "results") = inr found →
      BodySucceeds host response found.

(** ** Sample hosts and data, for the examples below *)

(** The quotation mark, which a literal cannot hold. *)
Definition quote : jsstring := [0x22%N].

(** The text [{"results":[]}]. *)
Definition text_no_matches : jsstring :=
  lit "{" ++ quote ++ lit "results" ++ quote ++ lit ":[]}".

(** [JSON.parse] on the three texts the examples use; any other text is
    not looked at by them. *)
Definition sampleParse (t : jsstring) : thrown + jsvalue :=
  if bool_decide (t = lit "null") then inr VNull
  else if bool_decide (t = lit "{}") then inr (VObj [])
  else if bool_decide (t = text_no_matches)
       then inr (VObj [(lit "results", VArr [])])
  else inl (ErrorObject (lit "Unexpected token")).

(** A host whose network answers every request with [answer]; the
    [TypeError] message is V8's. *)
Definition sampleHost (answer : thrown + Response) : Host :=
  {| VITE_API_URL := lit "http://localhost:8000";
     fetch := λ _, answer;
     JSON_parse := sampleParse;
     nullReadMessage := λ v k,
       lit "Cannot read properties of "
       ++ (match v with VNull => lit "null" | _ => lit "undefined" end)
       ++ lit " (reading '" ++ k ++ lit "')" |}.

Definition respond (ok : bool) (status : Z) (t : jsstring) : thrown + Response :=
  inr {| ok := ok; status := status; text := inr t |}.

Definition networkDown : thrown + Response :=
  inl (ErrorObject (lit "Failed to fetch")).

Definition alice : SearchResult :=
  {| filename := lit "alice.pdf"; score := 0.5;
     story := Some (lit "I led the backend team.");
     personality := None; rawText := Some (lit "Alice, 5 years backend") |}.

(** A record whose story is present and empty. *)
Definition blank : SearchResult :=
  {| filename := lit "blank.pdf"; score := 0.25;
     story := Some []; personality := Some (lit "curious"); rawText := None |}.

(** A record with a text of 401 code units. *)
Definition verbose : SearchResult :=
  {| filename := lit "verbose.pdf"; score := 0.75;
     story := Some (replicate 401 0x61%N); personality := None; rawText := None |}.
(** A string literal of JSON. *)
Definition quoted (s : string) : jsstring := quote ++ lit s ++ quote.

(** The JSON of one record for Alice, and of one for Bob that has no
    score and whose story is [null]. *)
Definition text_alice : jsstring :=
  lit "{" ++ quoted "filename" ++ lit ":" ++ quoted "alice.pdf"
  ++ lit "," ++ quoted "score" ++ lit ":0.5"
  ++ lit "," ++ quoted "story" ++ lit ":" ++ quoted "I led the backend team."
  ++ lit "," ++ quoted "rawText" ++ lit ":" ++ quoted "Alice, 5 years backend"
  ++ lit "}".

Definition text_bob : jsstring :=
  lit "{" ++ quoted "filename" ++ lit ":" ++ quoted "bob.pdf"
  ++ lit "," ++ quoted "story" ++ lit ":null"
  ++ lit "," ++ quoted "rawText" ++ lit ":" ++ quoted "Bob, UX design internship"
  ++ lit "}".

Definition json_alice : jsvalue :=
  VObj [(lit "filename", VStr (lit "alice.pdf"));
        (lit "score", VNum 0.5);
        (lit "story", VStr (lit "I led the backend team."));
        (lit "rawText", VStr (lit "Alice, 5 years backend"))].

Definition json_bob : jsvalue :=
  VObj [(lit "filename", VStr (lit "bob.pdf"));
        (lit "story", VNull);
        (lit "rawText", VStr (lit "Bob, UX design internship"))].

Definition bob : SearchResult :=
  {| filename := lit "bob.pdf"; score := PrimFloat.nan; story := None;
     personality := None; rawText := Some (lit "Bob, UX design internship") |}.

(** The text [{"results":[alice,bob]}], and the same list without the
    object around it. *)
Definition text_two_matches : jsstring :=
  lit "{" ++ quoted "results" ++ lit ":[" ++ text_alice ++ lit ","
  ++ text_bob ++ lit "]}".

Definition text_bare_list : jsstring :=
  lit "[" ++ text_alice ++ lit "," ++ text_bob ++ lit "]".

(** [JSON.parse] on these two texts as well. *)
Definition sampleParseRecords (t : jsstring) : thrown + jsvalue :=
  if bool_decide (t = text_two_matches)
  then inr (VObj [(lit "results", VArr [json_alice; json_bob])])
  else if bool_decide (t = text_bare_list)
  then inr (VArr [json_alice; json_bob])
  else sampleParse t.

Definition recordsHost (answer : thrown + Response) : Host :=
  {| VITE_API_URL := lit "http://localhost:8000";
     fetch := λ _, answer;
     JSON_parse := sampleParseRecords;
     nullReadMessage := nullReadMessage (sampleHost answer) |}.



(** A one-dimensional stand-in for the embedding space, and a store of
    two candidates: Bob's narrative extractions failed, so his point has
    the resume vector only. *)
Definition sampleSimilarity (a b : Z) : float :=
  if bool_decide (a = b) then 1%float else 0.5%float.

Definition sampleEmbed (t : jsstring) : option Z := Some (Z.of_nat (length t)).

Definition aliceVectors (n : Backend.VectorName) : option Z :=
  match n with
  | Backend.story_vector => Some 3%Z
  | Backend.personality_vector => Some 4%Z
  | Backend.resume_vector => Some 5%Z
  end.

Definition bobVectors (n : Backend.VectorName) : option Z :=
  match n with
  | Backend.resume_vector => Some 4%Z
  | _ => None
  end.

Definition sampleStore : list (Backend.Point Z) :=
  [ {| Backend.id := lit "bob.pdf";
       Backend.payload :=
         {| Backend.pl_filename := lit "bob.pdf";
            Backend.raw_text := lit "Bob, UX design internship";
            Backend.story_text := None; Backend.personality_text := None |};
       Backend.vectors := bobVectors |};
    {| Backend.id := lit "alice.pdf";
       Backend.payload :=
         {| Backend.pl_filename := lit "alice.pdf";
            Backend.raw_text := lit "Alice, 5 years backend engineering";
            Backend.story_text := Some (lit "I led the backend team.");
            Backend.personality_text := Some (lit "calm") |};
       Backend.vectors := aliceVectors |} ].

(** * Properties *)

(** ** [trim] *)

Lemma trimStart_snoc_keep (s : jsstring) (c : N) :
  isTrimmable c = false → trimStart (s ++ [c]) = trimStart s ++ [c].
Proof.
  intros Hc. induction s as [|d s IH]; simpl.
  - by rewrite Hc.
  - destruct (isTrimmable d); [exact IH | done].
Qed.

Lemma trimStart_idem (s : jsstring) : trimStart (trimStart s) = trimStart s.
Proof.
  induction s as [|d s IH]; simpl; [done|].
  destruct (isTrimmable d) eqn:Hd; [exact IH|].
  simpl. by rewrite Hd.
Qed.

Lemma trimStart_head (s : jsstring) :
  trimStart s = [] ∨ ∃ c r, trimStart s = c :: r ∧ isTrimmable c = false.
Proof.
  induction s as [|d s IH]; simpl; [by left|].
  destruct (isTrimmable d) eqn:Hd; [exact IH|].
  right. by exists d, s.
Qed.

Lemma trimStart_nil_iff (s : jsstring) :
  trimStart s = [] ↔ Forall (λ c, isTrimmable c = true) s.
Proof.
  induction s as [|d s IH]; simpl.
  - split; [constructor | done].
  - destruct (isTrimmable d) eqn:Hd.
    + rewrite IH. split; [by constructor | by inversion 1].
    + split; [done|]. inversion 1; congruence.
Qed.

Lemma trimEnd_nil : trimEnd [] = [].
Proof. reflexivity. Qed.

Lemma trimEnd_cons_keep (c : N) (r : jsstring) :
  isTrimmable c = false → trimEnd (c :: r) = c :: trimEnd r.
Proof.
  intros Hc. unfold trimEnd.
  by rewrite reverse_cons, trimStart_snoc_keep, reverse_snoc.
Qed.

Lemma trimEnd_idem (s : jsstring) : trimEnd (trimEnd s) = trimEnd s.
Proof.
  unfold trimEnd. by rewrite reverse_involutive, trimStart_idem.
Qed.

(** [trim] leaves nothing, or a string that begins with a code unit it
    does not strip. *)
Lemma trim_head (s : jsstring) :
  trim s = [] ∨ ∃ c r, trim s = c :: r ∧ isTrimmable c = false.
Proof.
  unfold trim. destruct (trimStart_head s) as [-> | (c & r & -> & Hc)].
  - by left.
  - right. exists c, (trimEnd r). by rewrite trimEnd_cons_keep.
Qed.

Lemma trim_idem (s : jsstring) : trim (trim s) = trim s.
Proof.
  destruct (trim_head s) as [-> | (c & r & Hs & Hc)]; [done|].
  unfold trim at 1. rewrite Hs. simpl. rewrite Hc.
  rewrite <- Hs. unfold trim. apply trimEnd_idem.
Qed.

(** [trim] leaves nothing exactly on the strings made of white space and
    line terminators only (the empty string among them). *)
Lemma trim_nil_iff (s : jsstring) :
  trim s = [] ↔ Forall (λ c, isTrimmable c = true) s.
Proof.
  rewrite <- trimStart_nil_iff. unfold trim. split.
  - destruct (trimStart_head s) as [-> | (c & r & -> & Hc)]; [done|].
    by rewrite trimEnd_cons_keep.
  - by intros ->.
Qed.

(** The margins [trim] takes away are white space. *)
Lemma trimStart_split (s : jsstring) :
  ∃ lead, s = lead ++ trimStart s ∧ Forall (λ c, isTrimmable c = true) lead.
Proof.
  induction s as [|d s (lead & Hs & Hlead)]; simpl.
  - by exists [].
  - destruct (isTrimmable d) eqn:Hd.
    + exists (d :: lead). split; [simpl; congruence | by constructor].
    + by exists [].
Qed.

Lemma trimEnd_split (s : jsstring) :
  ∃ trail, s = trimEnd s ++ trail ∧ Forall (λ c, isTrimmable c = true) trail.
Proof.
  destruct (trimStart_split (reverse s)) as (lead & Hs & Hlead).
  exists (reverse lead). split; [|by apply Forall_reverse].
  unfold trimEnd. rewrite <- reverse_app, <- Hs. by rewrite reverse_involutive.
Qed.

Lemma trimEnd_last (s : jsstring) (c : N) :
  last (trimEnd s) = Some c → isTrimmable c = false.
Proof.
  unfold trimEnd. rewrite last_reverse.
  destruct (trimStart_head (reverse s)) as [-> | (d & r & -> & Hd)]; [done|].
  simpl. by intros [= <-].
Qed.

(** ** One run of [searchResumes] *)

Ltac run_async :=
  unfold runSearch, searchResumes, try_catch_finally, bind, set, emit, await,
    throw, ret.

Section OneRun.

Variable host : Host.
Variables (q : jsstring) (m : SearchMode) (s : State).

(** The empty-query branch: two setters and the early [return]. *)
Lemma runSearch_empty :
  trim q = [] →
  runSearch host q m s = (setResults (VArr []) (setError None s), []).
Proof.
  intros Hq. run_async. by rewrite bool_decide_eq_true_2.
Qed.

(** The [catch] branch. *)
Lemma runSearch_fails (e : thrown) :
  trim q ≠ [] → RequestFails host (searchCall host q m) e →
  (runSearch host q m s).1 =
    setLoading false (setResults (VArr [])
      (setError (Some (errorMessage e)) (setLoading true (setError None s)))).
Proof.
  intros Hq Hfail. run_async. rewrite bool_decide_eq_false_2 by done.
  destruct Hfail as [e He | r e Hr He | r t Hr Ht Hok | r t e Hr Ht Hok He
                    | r t data e Hr Ht Hok Hd He].
  - by rewrite He.
  - by rewrite Hr, He.
  - by rewrite Hr, Ht, Hok.
  - by rewrite Hr, Ht, Hok, He.
  - by rewrite Hr, Ht, Hok, Hd, He.
Qed.

(** The end of the [try] block. *)
Lemma runSearch_succeeds (found : jsvalue) :
  trim q ≠ [] → RequestSucceeds host (searchCall host q m) found →
  (runSearch host q m s).1 =
    setLoading false (setResults (js_or found (VArr []))
      (setLoading true (setError None s))).
Proof.
  intros Hq Hsucc. run_async. rewrite bool_decide_eq_false_2 by done.
  destruct Hsucc as [r t data found Hr Ht Hok Hd Hf].
  by rewrite Hr, Ht, Hok, Hd, Hf.
Qed.

(** Every request settles one way or the other. *)
Lemma request_settles (call : FetchCall) :
  (∃ e, RequestFails host call e) ∨ (∃ found, RequestSucceeds host call found).
Proof.
  destruct (fetch host call) as [e|r] eqn:Hr; [left; exists e; by constructor|].
  destruct (text r) as [e|t] eqn:Ht; [left; exists e; by eapply fails_text|].
  destruct (ok r) eqn:Hok; [|left; eexists; by eapply fails_not_ok].
  destruct (JSON_parse host t) as [e|data] eqn:Hd;
    [left; exists e; by eapply fails_parse|].
  destruct (getProp host data (lit "results")) as [e|found] eqn:Hf.
  - left; exists e; by eapply fails_read.
  - right; exists found; by econstructor.
Qed.

(** The events of a run that reaches the network: exactly one [fetch],
    with the arguments of [searchCall]. *)
Lemma runSearch_fetches :
  trim q ≠ [] →
  filter (λ ev, isFetch ev = true) (runSearch host q m s).2
  = [EvFetch (searchCall host q m)].
Proof.
  intros Hq. run_async. rewrite bool_decide_eq_false_2 by done.
  destruct (fetch host _) as [e|r]; [done|].
  destruct (text r) as [e|t]; [done|].
  destruct (ok r); simpl; [|done].
  destruct (JSON_parse host t) as [e|data]; [done|].
  by destruct (getProp host data _).
Qed.

End OneRun.

(** ** C1: the empty query *)

(** C1. For every mode [m] and every state, a run whose query is empty
    after trimming (the empty string, or white space only) leaves an
    empty result list and no error, and causes no event at all: no
    [fetch], hence nothing that could reach the search service or its
    embedding provider. *)
Theorem empty_query_yields_no_results (host : Host) (q : jsstring)
    (m : SearchMode) (s : State) :
  trim q = [] →
  results (runSearch host q m s).1 = VArr []
  ∧ error (runSearch host q m s).1 = None
  ∧ (runSearch host q m s).2 = [].
Proof.
  intros Hq. by rewrite runSearch_empty.
Qed.

Lemma empty_query_witness :
  trim (lit "   ") = []
  ∧ results (runSearch (sampleHost networkDown) (lit "   ") Personality
               initialState).1 = VArr []
  ∧ error (runSearch (sampleHost networkDown) (lit "   ") Personality
             initialState).1 = None
  ∧ (runSearch (sampleHost networkDown) (lit "   ") Personality
       initialState).2 = [].
Proof.
  split; [reflexivity|].
  apply (empty_query_yields_no_results (sampleHost networkDown) (lit "   ")
           Personality initialState).
  reflexivity.
Defined.

(** The same at the level of the component: when the timer fires on an
    empty query, the trace does not grow. *)
Lemma empty_query_step (host : Host) (c : Component) (q : jsstring)
    (m : SearchMode) :
  pending c = Some (q, m) → trim q = [] →
  trace (step host c DebounceElapsed) = trace c
  ∧ results (state (step host c DebounceElapsed)) = VArr []
  ∧ error (state (step host c DebounceElapsed)) = None.
Proof.
  intros Hp Hq. unfold step. rewrite Hp, runSearch_empty by done. simpl.
  by rewrite app_nil_r.
Qed.

(** ** C5: the requests that are sent *)

(** A [fetch] event of a run is the call of [searchCall], and the run's
    query is not empty after trimming. *)
Lemma runSearch_fetch_event (host : Host) (q : jsstring) (m : SearchMode)
    (s : State) (call : FetchCall) :
  EvFetch call ∈ (runSearch host q m s).2 →
  trim q ≠ [] ∧ call = searchCall host q m.
Proof.
  intros Hin. destruct (decide (trim q = [])) as [Hq|Hq].
  - rewrite runSearch_empty in Hin by done. by apply elem_of_nil in Hin.
  - split; [done|].
    assert (EvFetch call ∈ filter (λ ev, isFetch ev = true)
                              (runSearch host q m s).2) as Hf
      by (by apply list_elem_of_filter).
    rewrite runSearch_fetches in Hf by done.
    apply list_elem_of_singleton in Hf. congruence.
Qed.

Lemma sentBySearch_timer (host : Host) (c : Component) :
  sentBySearch (trace c) →
  sentBySearch (trace (step host c DebounceElapsed)).
Proof.
  intros Hc. unfold step. destruct (pending c) as [[q m]|]; [|done].
  destruct (runSearch host q m (state c)) as [s' l] eqn:Hrun. simpl.
  intros call [Hin|Hin]%elem_of_app; [by apply Hc|].
  exists host, q, m. apply (runSearch_fetch_event host q m (state c)).
  by rewrite Hrun.
Qed.

Lemma step_sentBySearch (host : Host) (c : Component) (ev : UIEvent) :
  sentBySearch (trace c) → sentBySearch (trace (step host c ev)).
Proof.
  destruct ev; try done. apply sentBySearch_timer.
Qed.

Lemma run_snoc (script : list (Host * UIEvent)) (host : Host) (ev : UIEvent) :
  run (script ++ [(host, ev)]) = step host (run script) ev.
Proof. unfold run. by rewrite foldl_snoc. Qed.

Lemma run_sentBySearch (script : list (Host * UIEvent)) :
  sentBySearch (trace (run script)).
Proof.
  induction script as [|[host ev] script IH] using rev_ind.
  - intros call Hin. by apply elem_of_nil in Hin.
  - rewrite run_snoc. by apply step_sentBySearch.
Qed.

Lemma modeName_cases (m : SearchMode) :
  modeName m ∈ [lit "story"; lit "personality"; lit "resume"].
Proof. destruct m; set_solver. Qed.

(** ** Runs that overlap *)

Ltac run_pieces :=
  unfold searchBegin, searchOnFetch, searchOnText, searchCatch, searchFinally,
    try_catch_finally, bind, set, emit, await, throw, ret.

Section Pieces.

Variable host : Host.
Variables (s : State) (tr : list Event).

Lemma searchBegin_empty (q : jsstring) (m : SearchMode) :
  trim q = [] →
  searchBegin host q m s tr
  = (inr None, setResults (VArr []) (setError None s), tr).
Proof. intros Hq. run_pieces. by rewrite bool_decide_eq_true_2. Qed.

Lemma searchBegin_sends (q : jsstring) (m : SearchMode) :
  trim q ≠ [] →
  searchBegin host q m s tr
  = (inr (Some (AtFetch (searchCall host q m))),
     setLoading true (setError None s),
     (tr ++ [EvConsole (MakingSearchRequest (requestBody q m))])
     ++ [EvFetch (searchCall host q m)]).
Proof. intros Hq. run_pieces. by rewrite bool_decide_eq_false_2. Qed.

Lemma searchOnFetch_rejects (e : thrown) :
  searchOnFetch (inl e) s tr
  = (inr None,
     setLoading false (setResults (VArr []) (setError (Some (errorMessage e)) s)),
     tr ++ [EvConsole (SearchError e)]).
Proof. reflexivity. Qed.

Lemma searchOnFetch_resolves (response : Response) :
  searchOnFetch (inr response) s tr
  = (inr (Some (AtText response)), s,
     tr ++ [EvConsole (ResponseStatus (status response))]).
Proof. reflexivity. Qed.

Lemma searchOnText_fails (response : Response) (e : thrown) :
  BodyFails host response e →
  (searchOnText host response (text response) s tr).1.2
  = setLoading false (setResults (VArr []) (setError (Some (errorMessage e)) s)).
Proof.
  intros [e' He | t Ht Hok | t e' Ht Hok He | t data e' Ht Hok Hd He];
    run_pieces.
  - by rewrite He.
  - by rewrite Ht, Hok.
  - by rewrite Ht, Hok, He.
  - by rewrite Ht, Hok, Hd, He.
Qed.

Lemma searchOnText_succeeds (response : Response) (found : jsvalue) :
  BodySucceeds host response found →
  (searchOnText host response (text response) s tr).1.2
  = setLoading false (setResults (js_or found (VArr [])) s).
Proof.
  intros [t data found' Ht Hok Hd Hf]. run_pieces.
  by rewrite Ht, Hok, Hd, Hf.
Qed.

Lemma body_settles (response : Response) :
  (∃ e, BodyFails host response e) ∨ (∃ found, BodySucceeds host response found).
Proof.
  destruct (text response) as [e|t] eqn:Ht; [left; exists e; by constructor|].
  destruct (ok response) eqn:Hok; [|left; eexists; by eapply body_not_ok].
  destruct (JSON_parse host t) as [e|data] eqn:Hd;
    [left; exists e; by eapply body_parse|].
  destruct (getProp host data (lit "results")) as [e|found] eqn:Hf.
  - left; exists e; by eapply body_read.
  - right; exists found; by econstructor.
Qed.

(** The last piece adds console events only. *)
Lemma searchOnText_events (response : Response) :
  ∃ l, (searchOnText host response (text response) s tr).2 = tr ++ l
    ∧ Forall (λ ev, isFetch ev = false) l.
Proof.
  run_pieces.
  destruct (text response) as [e|t]; simpl.
  { eexists [_]. split; [done|]. by repeat constructor. }
  destruct (ok response); simpl.
  2:{ eexists [_; _]. rewrite <- app_assoc. split; [done|]. by repeat constructor. }
  destruct (JSON_parse host t) as [e|data]; simpl.
  { eexists [_; _]. rewrite <- app_assoc. split; [done|]. by repeat constructor. }
  destruct (getProp host data _); simpl.
  - eexists [_; _]. rewrite <- app_assoc. split; [done|]. by repeat constructor.
  - eexists [_]. split; [done|]. by repeat constructor.
Qed.

End Pieces.

(** The three pieces, run one after the other on an idle component, are
    the step that runs [searchResumes] to its end. *)
Lemma live_uninterrupted (host : Host) (c : Component) :
  foldl (liveStep host) {| now := c; inflight := [] |}
    [User DebounceElapsed; Settles 0; Settles 0]
  = {| now := step host c DebounceElapsed; inflight := [] |}.
Proof.
  unfold step. simpl. destruct (pending c) as [[q m]|] eqn:Hp; simpl.
  2:{ by destruct c. }
  unfold runSearch, searchResumes. run_pieces. unfold try_catch_finally, bind,
    set, emit, await, throw, ret.
  case_bool_decide as Hq; simpl; [by rewrite app_nil_r|].
  destruct (fetch host _) as [e|r]; simpl.
  { by rewrite <- !app_assoc. }
  destruct (text r) as [e|t]; simpl.
  { by rewrite <- !app_assoc. }
  destruct (ok r); simpl.
  2:{ by rewrite <- !app_assoc. }
  destruct (JSON_parse host t) as [e|data]; simpl.
  { by rewrite <- !app_assoc. }
  destruct (getProp host data _); simpl; by rewrite <- !app_assoc.
Qed.

Lemma liveRun_snoc (script : list (Host * LiveEvent)) (host : Host)
    (ev : LiveEvent) :
  liveRun (script ++ [(host, ev)]) = liveStep host (liveRun script) ev.
Proof. unfold liveRun. by rewrite foldl_snoc. Qed.

(** A session without overlap is a session of the live component. *)
Lemma liveRun_uninterrupted (script : list (Host * UIEvent)) :
  liveRun (uninterrupted script) = {| now := run script; inflight := [] |}.
Proof.
  induction script as [|[host ev] script IH] using rev_ind; [done|].
  unfold uninterrupted in *. rewrite bind_app, run_snoc. unfold liveRun in *.
  rewrite foldl_app, IH. cbn [mbind list_bind app snd fst].
  rewrite app_nil_r.
  destruct ev; try done.
  exact (live_uninterrupted host (run script)).
Qed.

Lemma sentBySearch_console (tr l : list Event) :
  sentBySearch tr → Forall (λ ev, isFetch ev = false) l →
  sentBySearch (tr ++ l).
Proof.
  intros Htr Hl call [Hin|Hin]%elem_of_app; [by apply Htr|].
  rewrite Forall_forall in Hl. by specialize (Hl _ Hin).
Qed.

Lemma liveStep_sentBySearch (host : Host) (l : Live) (ev : LiveEvent) :
  sentBySearch (trace (now l)) →
  sentBySearch (trace (now (liveStep host l ev))).
Proof.
  intros Hl. destruct ev as [ev|i].
  - destruct ev;
      lazymatch goal with
      | |- context [User DebounceElapsed] => idtac
      | |- context [User ?e] => exact (step_sentBySearch host (now l) e Hl)
      end.
    simpl. destruct (pending (now l)) as [[q m]|]; [|done].
    destruct (decide (trim q = [])) as [Hq|Hq].
    + by rewrite searchBegin_empty.
    + rewrite searchBegin_sends by done. simpl.
      intros call [Hin|Hin]%elem_of_app.
      * revert call Hin. apply sentBySearch_console; [done|].
        by repeat constructor.
      * apply list_elem_of_singleton in Hin as [= ->]. by exists host, q, m.
  - simpl. destruct (inflight l !! i) as [[call|response]|]; [| |done].
    + destruct (fetch host call) as [e|r].
      * rewrite searchOnFetch_rejects. simpl.
        apply sentBySearch_console; [done | by repeat constructor].
      * rewrite searchOnFetch_resolves. simpl.
        apply sentBySearch_console; [done | by repeat constructor].
    + destruct (searchOnText_events host (state (now l)) (trace (now l)) response)
        as (evs & Hevs & Hconsole).
      destruct (searchOnText host response (text response) (state (now l))
                  (trace (now l))) as [[res s'] tr']. simpl in *. subst tr'.
      by apply sentBySearch_console.
Qed.

Lemma liveRun_sentBySearch (script : list (Host * LiveEvent)) :
  sentBySearch (trace (now (liveRun script))).
Proof.
  induction script as [|[host ev] script IH] using rev_ind.
  - intros call Hin. by apply elem_of_nil in Hin.
  - rewrite liveRun_snoc. by apply liveStep_sentBySearch.
Qed.

(** C5. Whatever the user does and however the runs overlap, every
    request in the trace of the component carries the body
    [{query, mode}] where [query] is not empty, begins and ends with a
    code unit that is neither white space nor a line terminator (so
    nothing is left for [trim] to strip), and [mode] is one of ["story"],
    ["personality"], ["resume"]; the type [SearchMode] has no other
    inhabitant. *)
Theorem requests_carry_trimmed_query_and_mode
    (script : list (Host * LiveEvent)) (call : FetchCall) :
  EvFetch call ∈ trace (now (liveRun script)) →
  ∃ (sent : jsstring) (m : SearchMode),
    body call = VObj [(lit "query", VStr sent); (lit "mode", VStr (modeName m))]
    ∧ sent ≠ []
    ∧ (∃ c, head sent = Some c ∧ isTrimmable c = false)
    ∧ (∃ c, last sent = Some c ∧ isTrimmable c = false)
    ∧ trim sent = sent
    ∧ modeName m ∈ [lit "story"; lit "personality"; lit "resume"].
Proof.
  intros Hin.
  destruct (liveRun_sentBySearch script call Hin) as (host & q & m & Hq & ->).
  exists (trim q), m. split_and!; [done | done | | | apply trim_idem
                                  | apply modeName_cases].
  - destruct (trim_head q) as [? | (c & r & Hs & Hc)]; [done|].
    exists c. by rewrite Hs.
  - destruct (last (trim q)) as [c|] eqn:Hlast.
    + exists c. split; [done|]. by apply (trimEnd_last (trimStart q)).
    + by apply last_None in Hlast.
Qed.

Lemma requests_witness :
  let host := sampleHost networkDown in
  let script := [(host, User (ChangeQuery (lit " python ")));
                 (host, User (ClickMode Resume));
                 (host, User DebounceElapsed)] in
  let call := searchCall host (lit " python ") Resume in
  EvFetch call ∈ trace (now (liveRun script))
  ∧ body call = VObj [(lit "query", VStr (lit "python"));
                      (lit "mode", VStr (lit "resume"))]
  ∧ ∃ (sent : jsstring) (m : SearchMode),
      body call = VObj [(lit "query", VStr sent); (lit "mode", VStr (modeName m))]
      ∧ sent ≠ []
      ∧ (∃ c, head sent = Some c ∧ isTrimmable c = false)
      ∧ (∃ c, last sent = Some c ∧ isTrimmable c = false)
      ∧ trim sent = sent
      ∧ modeName m ∈ [lit "story"; lit "personality"; lit "resume"].
Proof.
  assert (EvFetch (searchCall (sampleHost networkDown) (lit " python ") Resume)
          ∈ trace (now (liveRun
                     [(sampleHost networkDown, User (ChangeQuery (lit " python ")));
                      (sampleHost networkDown, User (ClickMode Resume));
                      (sampleHost networkDown, User DebounceElapsed)]))) as Hin.
  { vm_compute. apply list_elem_of_further, list_elem_of_here. }
  split; [exact Hin|]. split; [reflexivity|].
  exact (requests_carry_trimmed_query_and_mode _ _ Hin).
Defined.

(** The same for the sessions in which no run is overtaken. *)
Lemma requests_of_run_are_trimmed (script : list (Host * UIEvent))
    (call : FetchCall) :
  EvFetch call ∈ trace (run script) →
  ∃ (sent : jsstring) (m : SearchMode),
    body call = VObj [(lit "query", VStr sent); (lit "mode", VStr (modeName m))]
    ∧ sent ≠ []
    ∧ (∃ c, head sent = Some c ∧ isTrimmable c = false)
    ∧ (∃ c, last sent = Some c ∧ isTrimmable c = false).
Proof.
  intros Hin.
  destruct (run_sentBySearch script call Hin) as (host & q & m & Hq & ->).
  exists (trim q), m. split_and!; [done | done | | ].
  - destruct (trim_head q) as [? | (c & r & Hs & Hc)]; [done|].
    exists c. by rewrite Hs.
  - destruct (last (trim q)) as [c|] eqn:Hlast.
    + exists c. split; [done|]. by apply (trimEnd_last (trimStart q)).
    + by apply last_None in Hlast.
Qed.

(** ** C3 and C10: failed requests, and successful ones without matches *)

Lemma render_no_cards (s : State) :
  loading s = false → results s = VArr [] →
  main <$> render s = Some (Cards []) ∧ banner <$> render s = Some (renderBanner s).
Proof.
  intros Hl Hr. unfold render, renderMain. by rewrite Hl, Hr.
Qed.

(** The steps in which a run goes on. *)
Lemma liveStep_fetch_rejected (host : Host) (l : Live) (i : nat)
    (call : FetchCall) (e : thrown) :
  inflight l !! i = Some (AtFetch call) → fetch host call = inl e →
  liveStep host l (Settles i)
  = {| now := {| state := setLoading false (setResults (VArr [])
                            (setError (Some (errorMessage e)) (state (now l))));
                 pending := pending (now l);
                 trace := trace (now l) ++ [EvConsole (SearchError e)] |};
       inflight := delete i (inflight l) |}.
Proof. intros Hi He. simpl. by rewrite Hi, He. Qed.

Lemma liveStep_fetch_resolved (host : Host) (l : Live) (i : nat)
    (call : FetchCall) (response : Response) :
  inflight l !! i = Some (AtFetch call) → fetch host call = inr response →
  liveStep host l (Settles i)
  = {| now := {| state := state (now l);
                 pending := pending (now l);
                 trace := trace (now l)
                          ++ [EvConsole (ResponseStatus (status response))] |};
       inflight := <[i := AtText response]> (inflight l) |}.
Proof. intros Hi He. simpl. by rewrite Hi, He. Qed.

Lemma liveStep_body (host : Host) (l : Live) (i : nat) (response : Response) :
  inflight l !! i = Some (AtText response) →
  state (now (liveStep host l (Settles i)))
  = (searchOnText host response (text response) (state (now l))
       (trace (now l))).1.2
  ∧ pending (now (liveStep host l (Settles i))) = pending (now l)
  ∧ inflight (liveStep host l (Settles i)) = delete i (inflight l).
Proof.
  intros Hi. simpl. rewrite Hi.
  by destruct (searchOnText host response (text response) (state (now l))
                 (trace (now l))) as [[res s'] tr'].
Qed.

Lemma liveStep_timer (host : Host) (l : Live) (q : jsstring) (m : SearchMode) :
  pending (now l) = Some (q, m) →
  state (now (liveStep host l (User DebounceElapsed)))
  = (if bool_decide (trim q = [])
     then setResults (VArr []) (setError None (state (now l)))
     else setLoading true (setError None (state (now l))))
  ∧ inflight (liveStep host l (User DebounceElapsed))
    = inflight l ++ (if bool_decide (trim q = []) then []
                     else [AtFetch (searchCall host q m)]).
Proof.
  intros Hp. simpl. rewrite Hp. case_bool_decide as Hq.
  - by rewrite searchBegin_empty.
  - by rewrite searchBegin_sends.
Qed.





(** What the two states look like: a state with a non-empty message
    shows it in the banner, a state without error shows no banner. *)
Lemma banner_tells_failure_from_no_matches (s1 s2 : State) (message : jsstring)
    (v1 v2 : View) :
  error s1 = Some message → message ≠ [] → error s2 = None →
  render s1 = Some v1 → render s2 = Some v2 →
  banner v1 = Some message ∧ banner v2 = None.
Proof.
  intros He1 Hne He2 Hv1 Hv2. unfold render in Hv1, Hv2.
  destruct (renderMain s1); [|done]. destruct (renderMain s2); [|done].
  simpl in Hv1, Hv2. injection Hv1 as <-. injection Hv2 as <-. simpl.
  unfold renderBanner. rewrite He1, He2. by destruct message.
Qed.

(** [data.results] can be read on every value but [null] and
    [undefined]. *)
Lemma getProp_defined (host : Host) (data : jsvalue) (k : jsstring) :
  data ≠ VNull → data ≠ VUndefined → ∃ found, getProp host data k = inr found.
Proof.
  intros Hn Hu. destruct data; simpl; try done; by eexists.
Qed.

(** C10, as the code has it. When the response is [ok] and its body
    parses to a value other than [null], [data.results] can be read; if
    it is missing ([undefined]) or otherwise falsy, the result list
    becomes empty, no error is set and the spinner is off. *)
Theorem falsy_results_are_zero_matches (host : Host) (q : jsstring)
    (m : SearchMode) (s : State) (r : Response) (t : jsstring) (data : jsvalue) :
  trim q ≠ [] →
  fetch host (searchCall host q m) = inr r → ok r = true → text r = inr t →
  JSON_parse host t = inr data → data ≠ VNull → data ≠ VUndefined →
  ∃ found, getProp host data (lit "results") = inr found
    ∧ (truthy found = false →
       results (runSearch host q m s).1 = VArr []
       ∧ error (runSearch host q m s).1 = None
       ∧ loading (runSearch host q m s).1 = false).
Proof.
  intros Hq Hr Hok Ht Hd Hn Hu.
  destruct (getProp_defined host data (lit "results") Hn Hu) as [found Hf].
  exists found. split; [done|]. intros Hfalsy.
  rewrite (runSearch_succeeds host q m s found Hq
             (succeeds _ _ r t data found Hr Ht Hok Hd Hf)).
  unfold js_or. by rewrite Hfalsy.
Qed.

Lemma falsy_results_witness :
  ∃ found,
    getProp (sampleHost (respond true 200 (lit "{}"))) (VObj []) (lit "results")
      = inr found
    ∧ (truthy found = false →
       results (runSearch (sampleHost (respond true 200 (lit "{}")))
                  (lit "python") Story initialState).1 = VArr []
       ∧ error (runSearch (sampleHost (respond true 200 (lit "{}")))
                  (lit "python") Story initialState).1 = None
       ∧ loading (runSearch (sampleHost (respond true 200 (lit "{}")))
                  (lit "python") Story initialState).1 = false).
Proof.
  apply (falsy_results_are_zero_matches
           (sampleHost (respond true 200 (lit "{}"))) (lit "python") Story
           initialState {| ok := true; status := 200; text := inr (lit "{}") |}
           (lit "{}") (VObj [])); done.
Defined.

(** C10 as stated fails on the body [null]: it parses, it has no
    [results] field, and reading [null.results] throws, so the run ends
    with an error set. *)
Lemma null_body_sets_error :
  let host := sampleHost (respond true 200 (lit "null")) in
  let s' := (runSearch host (lit "python") Story initialState).1 in
  JSON_parse host (lit "null") = inr VNull
  ∧ error s' = Some (lit "Cannot read properties of null (reading 'results')")
  ∧ error s' ≠ None.
Proof. by vm_compute. Qed.

(** ** C2: the field names on the wire *)

Lemma asSearchResult_ext (props1 props2 : list (jsstring * jsvalue)) :
  (∀ k, k ∈ consumedKeys → ownProp props1 k = ownProp props2 k) →
  asSearchResult (VObj props1) = asSearchResult (VObj props2).
Proof.
  intros Hsame. unfold asSearchResult.
  rewrite !(Hsame (lit "filename")), !(Hsame (lit "score")),
    !(Hsame (lit "story")), !(Hsame (lit "personality")),
    !(Hsame (lit "rawText")); [done | unfold consumedKeys; set_solver ..].
Qed.

Lemma asSearchResults_in_order (elems : list jsvalue) (rs : list SearchResult) :
  asSearchResults (VArr elems) = Some rs →
  Forall2 (λ v r, asSearchResult v = Some r) elems rs.
Proof. simpl. by rewrite mapM_Some. Qed.

(** Where the real render throws, the modelled one gives no view. *)
Lemma renderThrows_renderMain (s : State) :
  renderThrows s = true → renderMain s = None.
Proof.
  unfold renderThrows, renderMain. destruct (loading s); [done|]. simpl.
  destruct (results s) as [| | | | |elems|props]; try done.
  intros (v & Hin & Hv)%existsb_exists. simpl.
  apply fmap_None, mapM_None, Exists_exists. exists v. split.
  - by apply list_elem_of_In.
  - by destruct v.
Qed.

(** A record that is read is an object, and each field of the typed
    record comes from the property of its name. *)
Lemma asSearchResult_fields (v : jsvalue) (r : SearchResult) :
  asSearchResult v = Some r →
  ∃ fields, v = VObj fields
    ∧ ownProp fields (lit "filename") = VStr (filename r)
    ∧ asScore (ownProp fields (lit "score")) = Some (score r)
    ∧ asOptionalString (ownProp fields (lit "story")) = Some (story r)
    ∧ asOptionalString (ownProp fields (lit "personality")) = Some (personality r)
    ∧ asOptionalString (ownProp fields (lit "rawText")) = Some (rawText r).
Proof.
  destruct v as [| | | | |elems|fields]; try done. simpl.
  destruct (ownProp fields (lit "filename")) as [| | | |f| |] eqn:Hf; try done.
  destruct (asScore _) as [sc|] eqn:Hsc; [|done].
  destruct (asOptionalString (ownProp fields (lit "story")))
    as [st|] eqn:Hst; [|done].
  destruct (asOptionalString (ownProp fields (lit "personality")))
    as [pe|] eqn:Hpe; [|done].
  destruct (asOptionalString (ownProp fields (lit "rawText")))
    as [rt|] eqn:Hrt; [|done].
  intros [= <-]. by exists fields.
Qed.

Lemma asOptionalString_text (v : jsvalue) (field : option jsstring)
    (t : jsstring) :
  asOptionalString v = Some field → v = VStr t → field = Some t.
Proof. intros Hv ->. by injection Hv as <-. Qed.

Lemma asOptionalString_absent (v : jsvalue) (field : option jsstring) :
  asOptionalString v = Some field → v = VUndefined ∨ v = VNull → field = None.
Proof. intros Hv [-> | ->]; by injection Hv as <-. Qed.

(** The body of a card whose mode field holds [t], or nothing. *)
Lemma renderResultContent_text (s : State) (r : SearchResult) (index : nat)
    (t : jsstring) :
  modeContent (mode s) r = Some t →
  shownText (renderResultContent s r index)
  = if (400 <? length t) && negb (bool_decide (index ∈ expandedResults s))
    then take 400 t ++ lit "..." else t.
Proof.
  intros Hm. unfold renderResultContent. rewrite Hm.
  destruct t as [|c t]; [done|]. done.
Qed.

Lemma renderResultContent_absent (s : State) (r : SearchResult) (index : nat) :
  modeContent (mode s) r = None → renderResultContent s r index = None.
Proof. intros Hm. unfold renderResultContent. by rewrite Hm. Qed.

Lemma asSearchResults_ext (records1 records2 : list jsvalue) :
  Forall2 (λ v1 v2, asSearchResult v1 = asSearchResult v2) records1 records2 →
  asSearchResults (VArr records1) = asSearchResults (VArr records2).
Proof.
  simpl. induction 1 as [|v1 v2 l1 l2 Hv _ IH]; [done|].
  simpl. by rewrite Hv, IH.
Qed.

(** C2, as the code has it. Whatever the user does and however the runs
    overlap:
    - every request the component sends has the body [{query, mode}], in
      this order and with no other property;
    - the matches of an [ok] response are what its parsed body holds
      under [results]: the array there becomes the result list as it is,
      and a body that is itself the array of records, without the object
      around it, gives an empty result list;
    - the list branch renders one card per record, in the order of the
      array, and the card at a position shows the [filename] property of
      the record at this position, its [score] times 100, and as its
      body the text under [story], [personality] or [rawText], whichever
      the mode names (cut after 400 code units unless expanded), and no
      body when this property is missing or [null];
    - two responses whose records agree on [filename], [score], [story],
      [personality] and [rawText] are rendered alike, whatever else
      their records carry. *)
Theorem client_field_names :
  (∀ (script : list (Host * LiveEvent)) (call : FetchCall),
     EvFetch call ∈ trace (now (liveRun script)) →
     ∃ props, body call = VObj props ∧ keys props = [lit "query"; lit "mode"])
  ∧ (∀ (host : Host) (l : Live) (i : nat) (response : Response)
       (t : jsstring) (data : jsvalue),
       inflight l !! i = Some (AtText response) →
       text response = inr t → ok response = true →
       JSON_parse host t = inr data →
       (∀ props records, data = VObj props →
          ownProp props (lit "results") = VArr records →
          results (state (now (liveStep host l (Settles i)))) = VArr records)
       ∧ (∀ records, data = VArr records →
          results (state (now (liveStep host l (Settles i)))) = VArr []))
  ∧ (∀ (s : State) (records : list jsvalue) (cards : list Card),
       loading s = false → results s = VArr records →
       renderMain s = Some (Cards cards) →
       length cards = length records
       ∧ ∀ (i : nat) (card : Card), cards !! i = Some card →
           ∃ fields, records !! i = Some (VObj fields)
             ∧ ownProp fields (lit "filename") = VStr (card_filename card)
             ∧ (∀ x, ownProp fields (lit "score") = VNum x →
                  card_percent card = PrimFloat.mul x 100)
             ∧ (∀ name,
                  name = match mode s with
                         | Story => lit "story"
                         | Personality => lit "personality"
                         | Resume => lit "rawText"
                         end →
                  (∀ t, ownProp fields name = VStr t →
                     shownText (card_body card)
                     = if (400 <? length t)
                          && negb (bool_decide (i ∈ expandedResults s))
                       then take 400 t ++ lit "..." else t)
                  ∧ (ownProp fields name = VUndefined
                     ∨ ownProp fields name = VNull →
                     card_body card = None)))
  ∧ (∀ (s : State) (records1 records2 : list jsvalue),
       Forall2 (λ v1 v2, ∃ props1 props2,
                  v1 = VObj props1 ∧ v2 = VObj props2
                  ∧ ∀ k, k ∈ [lit "filename"; lit "score"; lit "story";
                              lit "personality"; lit "rawText"] →
                         ownProp props1 k = ownProp props2 k)
         records1 records2 →
       render (setResults (VArr records1) s)
       = render (setResults (VArr records2) s)).
Proof.
  split_and!.
  - intros script call Hin.
    destruct (liveRun_sentBySearch script call Hin) as (host & q & m & _ & ->).
    by eexists.
  - intros host l i response t data Hi Ht Hok Hd.
    destruct (liveStep_body host l i response Hi) as (-> & _ & _). split.
    + intros props records -> Hr.
      rewrite (searchOnText_succeeds host _ _ response (VArr records)).
      * done.
      * apply (body_found host response t (VObj props)); try done.
        simpl. by rewrite Hr.
    + intros records ->.
      rewrite (searchOnText_succeeds host _ _ response VUndefined).
      * done.
      * by apply (body_found host response t (VArr records)).
  - intros s records cards Hl Hr Hm. unfold renderMain in Hm.
    rewrite Hl, Hr in Hm. simpl in Hm.
    destruct (mapM asSearchResult records) as [rs|] eqn:Hrs; [|done].
    injection Hm as <-. apply mapM_Some in Hrs. split.
    { rewrite length_imap. symmetry. by eapply Forall2_length. }
    intros i card Hc. rewrite list_lookup_imap in Hc.
    destruct (rs !! i) as [r|] eqn:Hri; [|done]. injection Hc as <-.
    destruct (Forall2_lookup_r _ _ _ _ _ Hrs Hri) as (v & Hv & Hread).
    destruct (asSearchResult_fields v r Hread)
      as (fields & -> & Hf & Hsc & Hst & Hpe & Hrt).
    exists fields. split_and!; [done | done | |].
    + intros x Hx. rewrite Hx in Hsc. simpl in *. by injection Hsc as <-.
    + intros name ->. split.
      * intros t Ht. simpl. apply renderResultContent_text.
        destruct (mode s); simpl;
          eauto using asOptionalString_text.
      * intros Hn. simpl. apply renderResultContent_absent.
        destruct (mode s); simpl;
          eauto using asOptionalString_absent.
  - intros s records1 records2 Hsame. unfold render, renderMain.
    cbn [loading results setResults].
    rewrite (asSearchResults_ext records1 records2); [done|].
    eapply Forall2_impl; [exact Hsame|].
    intros v1 v2 (props1 & props2 & -> & -> & Hk).
    by apply asSearchResult_ext.
Qed.

Lemma client_field_names_witness :
  let host := recordsHost (respond true 200 text_two_matches) in
  let bare := recordsHost (respond true 200 text_bare_list) in
  let search h := liveRun [(h, User (ChangeQuery (lit "python")));
                           (h, User DebounceElapsed); (h, Settles 0)] in
  results (state (now (liveStep host (search host) (Settles 0))))
  = VArr [json_alice; json_bob]
  ∧ results (state (now (liveStep bare (search bare) (Settles 0)))) = VArr []
  ∧ renderMain (setResults (VArr [json_alice; json_bob]) initialState)
    = Some (Cards (imap (renderCard initialState) [alice; bob]))
  ∧ card_filename <$> imap (renderCard initialState) [alice; bob]
    = [lit "alice.pdf"; lit "bob.pdf"].
Proof.
  destruct client_field_names as (_ & Hbody & _ & _). cbv zeta. split_and!.
  - destruct (Hbody (recordsHost (respond true 200 text_two_matches))
                (liveRun [(recordsHost (respond true 200 text_two_matches),
                           User (ChangeQuery (lit "python")));
                          (recordsHost (respond true 200 text_two_matches),
                           User DebounceElapsed);
                          (recordsHost (respond true 200 text_two_matches),
                           Settles 0)])
                0 {| ok := true; status := 200; text := inr text_two_matches |}
                text_two_matches
                (VObj [(lit "results", VArr [json_alice; json_bob])])
                eq_refl eq_refl eq_refl eq_refl) as [Hobject _].
    exact (Hobject _ _ eq_refl eq_refl).
  - destruct (Hbody (recordsHost (respond true 200 text_bare_list))
                (liveRun [(recordsHost (respond true 200 text_bare_list),
                           User (ChangeQuery (lit "python")));
                          (recordsHost (respond true 200 text_bare_list),
                           User DebounceElapsed);
                          (recordsHost (respond true 200 text_bare_list),
                           Settles 0)])
                0 {| ok := true; status := 200; text := inr text_bare_list |}
                text_bare_list (VArr [json_alice; json_bob])
                eq_refl eq_refl eq_refl eq_refl) as [_ Hlist].
    exact (Hlist _ eq_refl).
  - reflexivity.
  - reflexivity.
Defined.

(** C2 as stated fails on both names: the request the component sends
    has a property [query] and none called [query_text], and a record
    that carries its resume under [raw_text] is read as having none, so
    that resume mode renders no body for it. *)
Lemma wire_names_are_query_and_rawText :
  let host := sampleHost (respond true 200 text_no_matches) in
  let sent := searchCall host (lit "python") Story in
  let record := VObj [(lit "filename", VStr (lit "a.pdf"));
                      (lit "score", VNum 0.5);
                      (lit "raw_text", VStr (lit "Alice, 5 years backend"))] in
  EvFetch sent ∈ trace (run [(host, ChangeQuery (lit "python"));
                             (host, DebounceElapsed)])
  ∧ (∃ props, body sent = VObj props
       ∧ keys props ≠ [lit "query_text"; lit "mode"]
       ∧ ownProp props (lit "query_text") = VUndefined)
  ∧ (∃ r, asSearchResult record = Some r ∧ rawText r = None
       ∧ renderResultContent (setMode Resume initialState) r 0 = None).
Proof.
  split_and!.
  - vm_compute. apply list_elem_of_further, list_elem_of_here.
  - eexists. split_and!; [reflexivity | by vm_compute | reflexivity].
  - eexists. split_and!; reflexivity.
Qed.

(** ** C4 and C8: the body of a result card *)

(** [renderResultContent] looks at the result only through the field
    the mode selects. *)
Lemma renderResultContent_field (s : State) (result : SearchResult) (index : nat) :
  renderResultContent s result index
  = match modeContent (mode s) result with
    | None => None
    | Some [] => None
    | Some content =>
        Some {| markdown :=
                  if (400 <? length content)
                     && negb (bool_decide (index ∈ expandedResults s))
                  then take 400 content ++ lit "..." else content;
                toggle :=
                  if 400 <? length content
                  then Some (if bool_decide (index ∈ expandedResults s)
                             then ShowLess else ShowMore)
                  else None |}
    end.
Proof.
  unfold renderResultContent.
  destruct (modeContent (mode s) result) as [[|c content]|]; reflexivity.
Qed.

(** C4. The body of a card comes from the field of the active mode:
    [story] in story mode, [personality] in personality mode, [rawText]
    in resume mode. When the field is absent nothing is rendered; when
    something is rendered, its text is that field, whole or cut to its
    first 400 code units and "..."; a field that is a non-empty string
    is always rendered, whole when it is short or expanded; and two
    results with the same field have the same body. *)
Theorem body_shows_field_of_active_mode (s : State) (result : SearchResult)
    (index : nat) :
  let field (r : SearchResult) :=
    match mode s with
    | Story => story r
    | Personality => personality r
    | Resume => rawText r
    end in
  (field result = None → renderResultContent s result index = None)
  ∧ (∀ v, renderResultContent s result index = Some v →
       ∃ content, field result = Some content ∧ content ≠ []
         ∧ (markdown v = content ∨ markdown v = take 400 content ++ lit "..."))
  ∧ (∀ content, field result = Some content → content ≠ [] →
       ∃ v, renderResultContent s result index = Some v
         ∧ (length content ≤ 400 ∨ index ∈ expandedResults s →
            markdown v = content))
  ∧ (∀ result', field result' = field result →
       renderResultContent s result' index = renderResultContent s result index).
Proof.
  intros field.
  assert (∀ r, field r = modeContent (mode s) r) as Hfield
    by (intros r; unfold field, modeContent; by destruct (mode s)).
  rewrite !Hfield. split_and!.
  - intros Hnone. by rewrite renderResultContent_field, Hnone.
  - intros v. rewrite renderResultContent_field.
    destruct (modeContent (mode s) result) as [[|c content]|]; [done| |done].
    intros [= <-]. exists (c :: content). split_and!; [done | done |].
    cbn [markdown]. destruct (_ && _); [by right | by left].
  - intros content Hc Hne. rewrite renderResultContent_field, Hc.
    destruct content as [|c content]; [done|]. eexists. split; [done|].
    cbn [markdown]. intros [Hshort | Hexp].
    + apply Nat.ltb_ge in Hshort. by rewrite Hshort.
    + rewrite (bool_decide_eq_true_2 _ Hexp). by rewrite andb_false_r.
  - intros result'. rewrite !Hfield, !renderResultContent_field.
    by intros ->.
Qed.

Lemma body_shows_field_witness :
  rawText blank = None
  ∧ renderResultContent (setMode Resume initialState) blank 0 = None
  ∧ personality blank = Some (lit "curious")
  ∧ ∃ v, renderResultContent (setMode Personality initialState) blank 0 = Some v
      ∧ (length (lit "curious") ≤ 400 ∨ 0 ∈ expandedResults initialState →
         markdown v = lit "curious").
Proof.
  pose proof (body_shows_field_of_active_mode (setMode Personality initialState)
                blank 0) as (_ & _ & Hshown & _).
  pose proof (body_shows_field_of_active_mode (setMode Resume initialState)
                blank 0) as (Habsent & _).
  split_and!; [reflexivity | by apply Habsent | reflexivity |].
  by apply (Hshown (lit "curious")).
Defined.

(** C8. Let [content] be the string the mode selects on a result. If it
    is longer than 400 code units and the card is not expanded, the text
    shown is its first 400 code units followed by "..."; otherwise the
    text shown is [content] itself. The button is there exactly when
    [content] is longer than 400, and reads "Show Less" when the card is
    expanded and "Show More" when it is not. *)
Theorem long_content_is_truncated (s : State) (result : SearchResult)
    (index : nat) (content : jsstring) :
  modeContent (mode s) result = Some content →
  let shown := renderResultContent s result index in
  (400 < length content → index ∉ expandedResults s →
   shownText shown = take 400 content ++ lit "...")
  ∧ (length content ≤ 400 ∨ index ∈ expandedResults s →
     shownText shown = content)
  ∧ ((∃ v label, shown = Some v ∧ toggle v = Some label) ↔ 400 < length content)
  ∧ (∀ v label, shown = Some v → toggle v = Some label →
       label = if bool_decide (index ∈ expandedResults s)
               then ShowLess else ShowMore).
Proof.
  intros Hc shown. subst shown. rewrite renderResultContent_field, Hc.
  destruct content as [|c content].
  { split_and!; [simpl; lia | done | | done].
    split; [by intros (v & l & ? & _) | simpl; lia]. }
  set (text := c :: content). split_and!.
  - intros Hlong Hcollapsed. cbn [shownText markdown].
    apply Nat.ltb_lt in Hlong. rewrite Hlong.
    by rewrite (bool_decide_eq_false_2 _ Hcollapsed).
  - intros [Hshort | Hexp]; cbn [shownText markdown].
    + apply Nat.ltb_ge in Hshort. by rewrite Hshort.
    + rewrite (bool_decide_eq_true_2 _ Hexp). by rewrite andb_false_r.
  - split.
    + intros (v & label & [= <-] & Ht). cbn [toggle] in Ht.
      destruct (400 <? _) eqn:Hlen in Ht; [|discriminate Ht].
      apply Nat.ltb_lt in Hlen. exact Hlen.
    + intros Hlong. apply Nat.ltb_lt in Hlong. eexists _, _.
      split; [done|]. cbn [toggle]. by rewrite Hlong.
  - intros v label [= <-]. cbn [toggle].
    destruct (400 <? _); [by intros [= <-] | discriminate].
Qed.

Lemma long_content_witness :
  modeContent (mode initialState) verbose = Some (replicate 401 0x61%N)
  ∧ shownText (renderResultContent initialState verbose 0)
    = replicate 400 0x61%N ++ lit "..."
  ∧ shownText (renderResultContent (toggleExpanded 0 initialState) verbose 0)
    = replicate 401 0x61%N.
Proof.
  split; [reflexivity|]. split.
  - refine (proj1 (long_content_is_truncated initialState verbose 0
                     (replicate 401 0x61%N) eq_refl) _ _).
    + rewrite length_replicate. lia.
    + simpl. set_solver.
  - refine (proj1 (proj2 (long_content_is_truncated
                     (toggleExpanded 0 initialState) verbose 0
                     (replicate 401 0x61%N) eq_refl)) _).
    right. vm_compute. set_solver.
Defined.

(** ** C6: the details of a selected candidate *)

Lemma textSection_spec (heading : string) (field : option jsstring)
    (h t : jsstring) :
  (h, t) ∈ textSection heading field ↔ h = lit heading ∧ field = Some t ∧ t ≠ [].
Proof.
  unfold textSection. destruct field as [[|c u]|]; simpl.
  - rewrite elem_of_nil. split; [done | by intros (_ & [= <-] & ?)].
  - rewrite list_elem_of_singleton. split.
    + by intros [= -> ->].
    + by intros (-> & [= <-] & _).
  - rewrite elem_of_nil. split; [done | by intros (_ & ? & _)].
Qed.

(** C6, as the code has it. Clicking "View Details" on a candidate, in
    either copy of the component, changes neither the trace nor the
    pending timer: no request is sent and none is scheduled. The modal
    (the side panel in the earlier copy) then shows the candidate's
    filename and, in the order raw text, personality, story, one section
    for each of these fields that holds a non-empty string, with that
    string as its text; a field that is absent or the empty string has
    no section. *)
Theorem details_show_nonempty_fields (host : Host) (c : Component)
    (candidate : SearchResult) :
  let c' := step host c (ClickViewDetails candidate) in
  let c0 := Part000.step host c (Part000.ClickViewDetails candidate) in
  (trace c' = trace c ∧ pending c' = pending c)
  ∧ (trace c0 = trace c ∧ pending c0 = pending c)
  ∧ Modal (isModalOpen (state c')) (selectedCandidate (state c'))
    = Some (candidateDetails candidate)
  ∧ Part000.DetailsPanel (selectedCandidate (state c0))
    = Some (candidateDetails candidate)
  ∧ details_title (candidateDetails candidate) = filename candidate
  ∧ (∃ raw pers sto,
       details_sections (candidateDetails candidate) = raw ++ pers ++ sto
       ∧ (∀ h t, (h, t) ∈ raw ↔
            h = lit "Resume + Story + Personality"
            ∧ rawText candidate = Some t ∧ t ≠ [])
       ∧ (∀ h t, (h, t) ∈ pers ↔
            h = lit "Personality" ∧ personality candidate = Some t ∧ t ≠ [])
       ∧ (∀ h t, (h, t) ∈ sto ↔
            h = lit "Story" ∧ story candidate = Some t ∧ t ≠ [])).
Proof.
  intros c' c0. subst c' c0. unfold step, Part000.step. simpl.
  assert (∀ s' : State, query s' = query (state c) → mode s' = mode (state c) →
            depsChanged (state c) s' = false) as Hdeps.
  { intros s' Hq Hm. unfold depsChanged. rewrite <- Hq, <- Hm.
    by rewrite !bool_decide_eq_true_2. }
  rewrite !Hdeps by done. split_and!; try done.
  eexists _, _, _. split; [reflexivity|].
  split_and!; intros h t; apply textSection_spec.
Qed.

(** C6 as stated fails on a field that is present and empty: [blank]
    has the story [""], and neither the modal nor the side panel has a
    section for it. *)
Lemma empty_field_has_no_section :
  story blank = Some []
  ∧ Modal true (Some blank)
    = Some {| details_title := lit "blank.pdf";
              details_sections := [(lit "Personality", lit "curious")] |}
  ∧ Part000.DetailsPanel (Some blank)
    = Some {| details_title := lit "blank.pdf";
              details_sections := [(lit "Personality", lit "curious")] |}.
Proof. split_and!; reflexivity. Qed.

(** ** C9: the saved candidates *)

Lemma isSaved_spec (name : jsstring) (s : State) :
  isSaved name s = true ↔ name ∈ filename <$> savedCandidates s.
Proof.
  unfold isSaved. induction (savedCandidates s) as [|saved l IH]; simpl.
  - rewrite elem_of_nil. split; [discriminate | done].
  - rewrite elem_of_cons, orb_true_iff, IH, bool_decide_eq_true.
    split; (intros [?|?]; [by left | by right]).
Qed.

Lemma saveCandidate_saved (candidate : SearchResult) (s : State) :
  isSaved (filename candidate) s = true → saveCandidate candidate s = s.
Proof. intros H. unfold saveCandidate. by rewrite H. Qed.

Lemma saveCandidate_NoDup (candidate : SearchResult) (s : State) :
  NoDup (filename <$> savedCandidates s) →
  NoDup (filename <$> savedCandidates (saveCandidate candidate s)).
Proof.
  intros Hs. unfold saveCandidate.
  destruct (isSaved (filename candidate) s) eqn:Hsaved; simpl; [done|].
  rewrite fmap_app. apply NoDup_app. split_and!; [done | | apply NoDup_singleton].
  intros name Hin ->%list_elem_of_singleton.
  apply isSaved_spec in Hin. congruence.
Qed.

Lemma removeCandidate_spec (name : jsstring) (s : State) (c : SearchResult) :
  c ∈ savedCandidates (removeCandidate name s)
  ↔ c ∈ savedCandidates s ∧ filename c ≠ name.
Proof. unfold removeCandidate. simpl. rewrite list_elem_of_filter. tauto. Qed.

Lemma fmap_filter_NoDup {A B} (f : A → B) (P : A → Prop)
    `{∀ x, Decision (P x)} (l : list A) :
  NoDup (f <$> l) → NoDup (f <$> filter P l).
Proof.
  induction l as [|x l IH]; simpl; [done|].
  rewrite NoDup_cons. intros [Hx Hl]. rewrite filter_cons.
  destruct (decide (P x)); [|by apply IH].
  simpl. apply NoDup_cons. split; [|by apply IH].
  intros (y & Hy & Hin)%list_elem_of_fmap. apply Hx.
  apply list_elem_of_fmap. exists y. split; [done|].
  by apply list_elem_of_filter in Hin as [_ ?].
Qed.

Lemma removeCandidate_NoDup (name : jsstring) (s : State) :
  NoDup (filename <$> savedCandidates s) →
  NoDup (filename <$> savedCandidates (removeCandidate name s)).
Proof. intros Hs. unfold removeCandidate. simpl. by apply fmap_filter_NoDup. Qed.

(** [searchResumes] does not touch the saved candidates. *)
Lemma runSearch_savedCandidates (host : Host) (q : jsstring) (m : SearchMode)
    (s : State) :
  savedCandidates (runSearch host q m s).1 = savedCandidates s.
Proof.
  destruct (decide (trim q = [])) as [Hq|Hq].
  - by rewrite runSearch_empty.
  - destruct (request_settles host (searchCall host q m)) as [[e He]|[found Hf]].
    + by rewrite (runSearch_fails host q m s e Hq He).
    + by rewrite (runSearch_succeeds host q m s found Hq Hf).
Qed.

Lemma handle_NoDup (ev : UIEvent) (s : State) :
  NoDup (filename <$> savedCandidates s) →
  NoDup (filename <$> savedCandidates (handle ev s)).
Proof.
  intros Hs. destruct ev; simpl; try done.
  - destruct (isSaved (filename result) s).
    + by apply removeCandidate_NoDup.
    + by apply saveCandidate_NoDup.
  - by apply removeCandidate_NoDup.
Qed.

Lemma step_NoDup (host : Host) (c : Component) (ev : UIEvent) :
  NoDup (filename <$> savedCandidates (state c)) →
  NoDup (filename <$> savedCandidates (state (step host c ev))).
Proof.
  intros Hc.
  assert (NoDup (filename <$> savedCandidates (state (step host c DebounceElapsed)))).
  { unfold step. destruct (pending c) as [[q m]|]; [|done].
    pose proof (runSearch_savedCandidates host q m (state c)) as Hrun.
    destruct (runSearch host q m (state c)) as [s' l]. simpl in *.
    by rewrite Hrun. }
  destruct ev; try done; by apply (handle_NoDup _ (state c)).
Qed.

Lemma part000_step_NoDup (host : Host) (c : Component) (ev : Part000.UIEvent) :
  NoDup (filename <$> savedCandidates (state c)) →
  NoDup (filename <$> savedCandidates (state (Part000.step host c ev))).
Proof.
  intros Hc. destruct ev; simpl; try done.
  - by apply saveCandidate_NoDup.
  - destruct (pending c) as [[q m]|]; [|done].
    pose proof (runSearch_savedCandidates host q m (state c)) as Hrun.
    destruct (runSearch host q m (state c)) as [s' l]. simpl in *.
    by rewrite Hrun.
Qed.

Lemma run_NoDup (script : list (Host * UIEvent)) :
  NoDup (filename <$> savedCandidates (state (run script))).
Proof.
  induction script as [|[host ev] script IH] using rev_ind.
  - apply NoDup_nil_2.
  - rewrite run_snoc. by apply step_NoDup.
Qed.

Lemma part000_run_NoDup (script : list (Host * Part000.UIEvent)) :
  NoDup (filename <$> savedCandidates (state (Part000.run script))).
Proof.
  induction script as [|[host ev] script IH] using rev_ind.
  - apply NoDup_nil_2.
  - unfold Part000.run. rewrite foldl_snoc. by apply part000_step_NoDup.
Qed.

(** C9. [saveCandidate] leaves the state as it is when a saved candidate
    already has the filename; [removeCandidate] keeps exactly the saved
    candidates with another filename; both keep the filenames of the
    list free of duplicates; and in every state the component reaches,
    in either copy, no two saved candidates share a filename. *)
Theorem saved_candidates_unique_per_filename :
  (∀ (s : State) (candidate saved : SearchResult),
     saved ∈ savedCandidates s → filename saved = filename candidate →
     saveCandidate candidate s = s)
  ∧ (∀ (s : State) (name : jsstring) (c : SearchResult),
       c ∈ savedCandidates (removeCandidate name s)
       ↔ c ∈ savedCandidates s ∧ filename c ≠ name)
  ∧ (∀ (s : State) (candidate : SearchResult),
       NoDup (filename <$> savedCandidates s) →
       NoDup (filename <$> savedCandidates (saveCandidate candidate s)))
  ∧ (∀ (s : State) (name : jsstring),
       NoDup (filename <$> savedCandidates s) →
       NoDup (filename <$> savedCandidates (removeCandidate name s)))
  ∧ (∀ script : list (Host * UIEvent),
       NoDup (filename <$> savedCandidates (state (run script))))
  ∧ (∀ script : list (Host * Part000.UIEvent),
       NoDup (filename <$> savedCandidates (state (Part000.run script)))).
Proof.
  split_and!.
  - intros s candidate saved Hin Heq. apply saveCandidate_saved, isSaved_spec.
    rewrite <- Heq. by apply list_elem_of_fmap_2.
  - intros s name c. apply removeCandidate_spec.
  - intros s candidate. apply saveCandidate_NoDup.
  - intros s name. apply removeCandidate_NoDup.
  - apply run_NoDup.
  - apply part000_run_NoDup.
Qed.

Lemma saved_candidates_witness :
  let s := saveCandidate alice initialState in
  alice ∈ savedCandidates s
  ∧ saveCandidate alice s = s
  ∧ NoDup (filename <$> savedCandidates (saveCandidate blank s))
  ∧ NoDup (filename <$> savedCandidates (removeCandidate (lit "alice.pdf") s)).
Proof.
  destruct saved_candidates_unique_per_filename as (Hsame & _ & Hsave & Hrem & _).
  assert (alice ∈ savedCandidates (saveCandidate alice initialState)) as Hin
    by apply list_elem_of_here.
  assert (NoDup (filename <$> savedCandidates (saveCandidate alice initialState)))
    as Hnd by (apply Hsave, NoDup_nil_2).
  split_and!; [exact Hin | by apply (Hsame _ alice alice) | by apply Hsave
              | by apply Hrem].
Defined.

(** ** C7: mode isolation in the search service *)

Section ModeIsolation.

Import Backend.

Context {Vector : Type}.
Variable similarity : Vector → Vector → float.
Variable embedQuery : jsstring → option Vector.
Variable topK : nat.

(** In a list without duplicate keys, a key names one element. *)
Lemma NoDup_key_unique {A B} (f : A → B) (l : list A) (x y : A) :
  NoDup (f <$> l) → x ∈ l → y ∈ l → f x = f y → x = y.
Proof.
  induction l as [|z l IH]; [by intros _ ?%elem_of_nil|].
  rewrite fmap_cons, NoDup_cons. intros [Hz Hl] Hx Hy Heq.
  apply elem_of_cons in Hx as [->|Hx]; apply elem_of_cons in Hy as [->|Hy].
  - done.
  - exfalso. apply Hz. rewrite Heq. by apply list_elem_of_fmap_2.
  - exfalso. apply Hz. rewrite <- Heq. by apply list_elem_of_fmap_2.
  - by apply IH.
Qed.

Lemma insertHit_elem (h x : Hit) (l : list Hit) :
  x ∈ insertHit h l ↔ x = h ∨ x ∈ l.
Proof.
  induction l as [|h' l IH]; simpl.
  - rewrite list_elem_of_singleton, elem_of_nil. tauto.
  - destruct (PrimFloat.ltb _ _).
    + rewrite (elem_of_cons (h' :: l)). tauto.
    + rewrite !elem_of_cons, IH. tauto.
Qed.

Lemma sortHits_elem (x : Hit) (l : list Hit) : x ∈ sortHits l ↔ x ∈ l.
Proof.
  unfold sortHits.
  assert (∀ acc, x ∈ foldl (λ acc h, insertHit h acc) acc l ↔ x ∈ acc ∨ x ∈ l)
    as Hgen.
  { induction l as [|h l IH]; intros acc; simpl.
    - rewrite elem_of_nil. tauto.
    - rewrite IH, insertHit_elem, elem_of_cons. tauto. }
  rewrite Hgen, elem_of_nil. tauto.
Qed.

(** Every hit of [search] is the score of a point of the store against
    the named vector it carries. *)
Lemma search_hit (store : list (Point Vector)) (vector_name : VectorName)
    (query_vector : Vector) (limit : nat) (score_threshold : option float)
    (h : Hit) :
  h ∈ search Vector similarity store vector_name query_vector limit
        score_threshold →
  ∃ p v, p ∈ store ∧ vectors Vector p vector_name = Some v
    ∧ h = {| hit_id := id Vector p;
             hit_score := similarity query_vector v;
             hit_payload := payload Vector p |}.
Proof.
  unfold search. intros Hin. apply (subseteq_take limit) in Hin.
  apply sortHits_elem, list_elem_of_filter in Hin as [_ Hin].
  apply list_elem_of_omap in Hin as (p & Hp & Hscore).
  unfold scorePoint in Hscore.
  destruct (vectors Vector p vector_name) as [v|] eqn:Hv; [|done].
  exists p, v. simpl in Hscore. by injection Hscore as <-.
Qed.

(** The service answers a query that is empty after trimming with no
    result and calls neither the embedding provider nor the store. *)
Lemma service_rejects_empty_query (store : list (Point Vector))
    (query_text : jsstring) (m : SearchMode) :
  trim query_text = [] →
  search_service Vector similarity embedQuery topK store query_text m
  = (Some [], []).
Proof.
  intros Hq. unfold search_service. by rewrite bool_decide_eq_true_2.
Qed.

(** C7. When the service answers a query in mode [m], every record it
    returns was assembled from a point of the store that carries the
    named vector of [m] (the personality vector in personality mode),
    and its score is the similarity of the embedded query to that
    vector and to no other. A point that lacks the vector is left out:
    when filenames identify the points, its filename is not among the
    results. *)
Theorem results_carry_the_vector_of_the_mode (store : list (Point Vector))
    (query_text : jsstring) (m : SearchMode) (rs : list ResultRecord)
    (calls : list Call) :
  search_service Vector similarity embedQuery topK store query_text m
    = (Some rs, calls) →
  vectorOf Personality = personality_vector
  ∧ (∀ r, r ∈ rs →
       ∃ p v query_vector,
         p ∈ store ∧ embedQuery query_text = Some query_vector
         ∧ vectors Vector p (vectorOf m) = Some v
         ∧ r_filename r = pl_filename (payload Vector p)
         ∧ r_score r = similarity query_vector v)
  ∧ (NoDup ((λ p, pl_filename (payload Vector p)) <$> store) →
     ∀ p, p ∈ store → vectors Vector p (vectorOf m) = None →
          pl_filename (payload Vector p) ∉ r_filename <$> rs).
Proof.
  intros Hrun.
  assert (∀ r, r ∈ rs →
            ∃ p v query_vector,
              p ∈ store ∧ embedQuery query_text = Some query_vector
              ∧ vectors Vector p (vectorOf m) = Some v
              ∧ r_filename r = pl_filename (payload Vector p)
              ∧ r_score r = similarity query_vector v) as Hhits.
  { unfold search_service in Hrun. case_bool_decide.
    - injection Hrun as <- _. intros r Hr. by apply elem_of_nil in Hr.
    - destruct (embedQuery query_text) as [qv|] eqn:Hqv; [|done].
      injection Hrun as <- _. intros r (h & -> & Hh)%list_elem_of_fmap.
      apply search_hit in Hh as (p & v & Hp & Hv & ->).
      by exists p, v, qv. }
  split_and!; [done | exact Hhits |].
  intros Hnodup p Hp Hnone (r & Hname & Hr)%list_elem_of_fmap.
  destruct (Hhits r Hr) as (p' & v & _ & Hp' & _ & Hv & Hname' & _).
  assert (p = p') as ->; [|congruence].
  eapply (NoDup_key_unique (λ p, pl_filename (payload Vector p))); try done.
  by rewrite <- Hname'.
Qed.

End ModeIsolation.

Lemma results_carry_the_vector_witness :
  Backend.search_service Z sampleSimilarity sampleEmbed 10 sampleStore
    (lit "calm") Personality
  = (Some [ {| Backend.r_filename := lit "alice.pdf"; Backend.r_score := 1;
               Backend.r_story := Some (lit "I led the backend team.");
               Backend.r_personality := Some (lit "calm");
               Backend.r_raw_text := Some (lit "Alice, 5 years backend engineering") |} ],
     [Backend.CallEmbed (lit "calm");
      Backend.CallSearch Backend.personality_vector])
  ∧ lit "bob.pdf" ∉ [lit "alice.pdf"].
Proof.
  assert (Backend.search_service Z sampleSimilarity sampleEmbed 10 sampleStore
            (lit "calm") Personality
          = (Some [ {| Backend.r_filename := lit "alice.pdf"; Backend.r_score := 1;
               Backend.r_story := Some (lit "I led the backend team.");
               Backend.r_personality := Some (lit "calm");
               Backend.r_raw_text := Some (lit "Alice, 5 years backend engineering") |} ],
             [Backend.CallEmbed (lit "calm");
              Backend.CallSearch Backend.personality_vector])) as Hrun
    by (vm_compute; reflexivity).
  split; [exact Hrun|].
  destruct (results_carry_the_vector_of_the_mode sampleSimilarity sampleEmbed 10
              sampleStore (lit "calm") Personality _ _ Hrun) as (_ & _ & Hout).
  refine (Hout _ (hd (Backend.Build_Point Z [] (Backend.Build_Payload [] [] None None) bobVectors) sampleStore) _ _).
  - apply (bool_decide_unpack _). by vm_compute.
  - apply list_elem_of_here.
  - reflexivity.
Defined.

(** ** The earlier copy sends the same requests *)

Lemma part000_run_sentBySearch (script : list (Host * Part000.UIEvent)) :
  sentBySearch (trace (Part000.run script)).
Proof.
  induction script as [|[host ev] script IH] using rev_ind.
  - intros call Hin. by apply elem_of_nil in Hin.
  - unfold Part000.run. rewrite foldl_snoc. fold (Part000.run script).
    destruct ev; try exact IH.
    exact (sentBySearch_timer host (Part000.run script) IH).
Qed.

(** * Further properties of the component *)

(** ** What a run sends *)

(** X1. The query a request carries is the typed query without its
    leading and trailing white space, and nothing else is removed: the
    typed query is [lead ++ sent ++ trail] with [lead] and [trail] made
    of white space and line terminators only, and [sent] begins and ends
    with a code unit that is neither. *)
Theorem sent_query_is_the_typed_query_without_margins (host : Host)
    (q : jsstring) (m : SearchMode) (s : State) (call : FetchCall) :
  EvFetch call ∈ (runSearch host q m s).2 →
  ∃ lead sent trail,
    body call = VObj [(lit "query", VStr sent); (lit "mode", VStr (modeName m))]
    ∧ q = lead ++ sent ++ trail
    ∧ Forall (λ c, isTrimmable c = true) lead
    ∧ Forall (λ c, isTrimmable c = true) trail
    ∧ (∃ c, head sent = Some c ∧ isTrimmable c = false)
    ∧ (∃ c, last sent = Some c ∧ isTrimmable c = false).
Proof.
  intros [Hq ->]%runSearch_fetch_event.
  destruct (trimStart_split q) as (lead & Hlead & Hl).
  destruct (trimEnd_split (trimStart q)) as (trail & Htrail & Ht).
  exists lead, (trim q), trail. split_and!; [done | | done | done | | ].
  - unfold trim. by rewrite <- Htrail.
  - destruct (trim_head q) as [? | (c & r & Hs & Hc)]; [done|].
    exists c. by rewrite Hs.
  - destruct (last (trim q)) as [c|] eqn:Hlast.
    + exists c. split; [done|]. by apply (trimEnd_last (trimStart q)).
    + by apply last_None in Hlast.
Qed.

Lemma sent_query_witness :
  let host := sampleHost networkDown in
  let call := searchCall host (lit "  senior  engineer ") Story in
  EvFetch call ∈ (runSearch host (lit "  senior  engineer ") Story initialState).2
  ∧ ∃ lead sent trail,
      body call = VObj [(lit "query", VStr sent); (lit "mode", VStr (modeName Story))]
      ∧ lit "  senior  engineer " = lead ++ sent ++ trail
      ∧ Forall (λ c, isTrimmable c = true) lead
      ∧ Forall (λ c, isTrimmable c = true) trail
      ∧ (∃ c, head sent = Some c ∧ isTrimmable c = false)
      ∧ (∃ c, last sent = Some c ∧ isTrimmable c = false).
Proof.
  assert (EvFetch (searchCall (sampleHost networkDown)
                     (lit "  senior  engineer ") Story)
          ∈ (runSearch (sampleHost networkDown) (lit "  senior  engineer ")
               Story initialState).2) as Hin
    by (vm_compute; apply list_elem_of_further, list_elem_of_here).
  split; [exact Hin|].
  exact (sent_query_is_the_typed_query_without_margins _ _ _ _ _ Hin).
Defined.

(** X2. A run never retries and never sends twice: whatever the host
    answers, a run makes no [fetch] call when the query consists of white
    space only, and exactly one, the call of [searchCall], when the query
    has a code unit that is not white space. *)
Theorem one_request_per_run (host : Host) (q : jsstring) (m : SearchMode)
    (s : State) :
  (Forall (λ c, isTrimmable c = true) q → (runSearch host q m s).2 = [])
  ∧ (Exists (λ c, isTrimmable c = false) q →
     filter (λ ev, isFetch ev = true) (runSearch host q m s).2
     = [EvFetch (searchCall host q m)]).
Proof.
  split.
  - intros Hq%trim_nil_iff. by rewrite runSearch_empty.
  - intros Hq. apply runSearch_fetches. rewrite trim_nil_iff.
    intros Hall. apply Exists_exists in Hq as (c & Hin & Hc).
    rewrite Forall_forall in Hall. specialize (Hall c Hin). congruence.
Qed.

Lemma one_request_witness :
  (runSearch (sampleHost (respond false 500 (lit "oops"))) (lit "  ") Resume
     initialState).2 = []
  ∧ filter (λ ev, isFetch ev = true)
      (runSearch (sampleHost (respond false 500 (lit "oops"))) (lit " a") Resume
         initialState).2
    = [EvFetch (searchCall (sampleHost (respond false 500 (lit "oops")))
                  (lit " a") Resume)].
Proof.
  destruct (one_request_per_run (sampleHost (respond false 500 (lit "oops")))
              (lit "  ") Resume initialState) as [Hnone _].
  destruct (one_request_per_run (sampleHost (respond false 500 (lit "oops")))
              (lit " a") Resume initialState) as [_ Hone].
  split.
  - apply Hnone. by repeat constructor.
  - apply Hone. apply Exists_cons_tl, Exists_cons_hd. reflexivity.
Defined.

(** The state a run leaves, in all cases. *)
Lemma runSearch_state (host : Host) (q : jsstring) (m : SearchMode) (s : State) :
  (trim q = [] ∧ (runSearch host q m s).1 = setResults (VArr []) (setError None s))
  ∨ (trim q ≠ [] ∧ ∃ e, RequestFails host (searchCall host q m) e
       ∧ (runSearch host q m s).1
         = setLoading false (setResults (VArr [])
             (setError (Some (errorMessage e)) (setLoading true (setError None s)))))
  ∨ (trim q ≠ [] ∧ ∃ found, RequestSucceeds host (searchCall host q m) found
       ∧ (runSearch host q m s).1
         = setLoading false (setResults (js_or found (VArr []))
             (setLoading true (setError None s)))).
Proof.
  destruct (decide (trim q = [])) as [Hq|Hq].
  - left. by rewrite runSearch_empty.
  - right. destruct (request_settles host (searchCall host q m))
      as [[e He]|[found Hf]].
    + left. split; [done|]. exists e. split; [done|]. by apply runSearch_fails.
    + right. split; [done|]. exists found. split; [done|].
      by apply runSearch_succeeds.
Qed.

(** X3. A run writes the slots [results], [error] and [loading] and no
    other: the query, the mode, the expanded cards, the saved candidates,
    the selected candidate and the modal flag are as before it. *)
Theorem run_keeps_the_other_slots (host : Host) (q : jsstring) (m : SearchMode)
    (s : State) :
  let s' := (runSearch host q m s).1 in
  query s' = query s ∧ mode s' = mode s
  ∧ expandedResults s' = expandedResults s
  ∧ savedCandidates s' = savedCandidates s
  ∧ selectedCandidate s' = selectedCandidate s
  ∧ isModalOpen s' = isModalOpen s.
Proof.
  intros s'. subst s'.
  destruct (runSearch_state host q m s)
    as [[_ ->] | [(_ & e & _ & ->) | (_ & found & _ & ->)]]; done.
Qed.



(** ** What is shown after a successful request *)

(** X5. The records of a successful response are shown as received,
    whatever else is under way: a truthy [data.results] becomes the
    result list unchanged and [error] is left as it is; when it is an
    array of records, there is one card per record, in the order of the
    array, and the card at position [i] carries the filename of record
    [i] and the body [renderResultContent] gives for it at index [i].
    Nothing is filtered, sorted or merged. *)
Theorem results_are_shown_as_received (host : Host) (l : Live) (i : nat)
    (response : Response) (found : jsvalue) (rs : list SearchResult) :
  inflight l !! i = Some (AtText response) → BodySucceeds host response found →
  truthy found = true → asSearchResults found = Some rs →
  let s' := state (now (liveStep host l (Settles i))) in
  results s' = found ∧ error s' = error (state (now l))
  ∧ ∃ cards, main <$> render s' = Some (Cards cards)
      ∧ length cards = length rs
      ∧ card_filename <$> cards = filename <$> rs
      ∧ ∀ i r, rs !! i = Some r →
          ∃ card, cards !! i = Some card
            ∧ card_filename card = filename r
            ∧ card_body card = renderResultContent s' r i.
Proof.
  intros Hi Hs Htruthy Hrs s'. subst s'.
  destruct (liveStep_body host l i response Hi) as (-> & _ & _).
  rewrite (searchOnText_succeeds host _ _ response found Hs).
  unfold js_or. rewrite Htruthy. split_and!; [done | done |].
  set (s' := setLoading false _).
  exists (imap (renderCard s') rs). split_and!.
  - unfold render, renderMain. simpl. by rewrite Hrs.
  - by rewrite length_imap.
  - rewrite fmap_imap. rewrite <- (imap_const filename). by apply imap_ext.
  - intros k r Hk. exists (renderCard s' k r). split; [|done].
    by rewrite list_lookup_imap, Hk.
Qed.

Lemma results_are_shown_witness :
  let host := recordsHost (respond true 200 text_two_matches) in
  let l := liveRun [(host, User (ChangeQuery (lit "python")));
                    (host, User DebounceElapsed); (host, Settles 0)] in
  let s' := state (now (liveStep host l (Settles 0))) in
  asSearchResults (VArr [json_alice; json_bob]) = Some [alice; bob]
  ∧ results s' = VArr [json_alice; json_bob] ∧ error s' = None
  ∧ ∃ cards, main <$> render s' = Some (Cards cards)
      ∧ length cards = 2
      ∧ card_filename <$> cards = [lit "alice.pdf"; lit "bob.pdf"]
      ∧ ∀ i r, [alice; bob] !! i = Some r →
          ∃ card, cards !! i = Some card
            ∧ card_filename card = filename r
            ∧ card_body card = renderResultContent s' r i.
Proof.
  cbv zeta. split; [reflexivity|].
  refine (results_are_shown_as_received
            (recordsHost (respond true 200 text_two_matches))
            (liveRun [(recordsHost (respond true 200 text_two_matches),
                       User (ChangeQuery (lit "python")));
                      (recordsHost (respond true 200 text_two_matches),
                       User DebounceElapsed);
                      (recordsHost (respond true 200 text_two_matches),
                       Settles 0)])
            0 {| ok := true; status := 200; text := inr text_two_matches |}
            (VArr [json_alice; json_bob]) [alice; bob] eq_refl _ eq_refl eq_refl).
  by apply (body_found _ _ text_two_matches
              (VObj [(lit "results", VArr [json_alice; json_bob])])).
Defined.

(** ** The debounce timer *)

Lemma depsChanged_false (s s' : State) :
  query s' = query s → mode s' = mode s → depsChanged s s' = false.
Proof.
  intros Hq Hm. unfold depsChanged. rewrite Hq, Hm.
  by rewrite !bool_decide_eq_true_2.
Qed.

(** Handlers other than the two inputs of the search leave [query] and
    [mode] alone. *)
Lemma handle_keeps_inputs (ev : UIEvent) (s : State) :
  changesSearchInput ev = false →
  query (handle ev s) = query s ∧ mode (handle ev s) = mode s
  ∧ results (handle ev s) = results s ∧ error (handle ev s) = error s
  ∧ loading (handle ev s) = loading s.
Proof.
  destruct ev; try done; intros _; simpl.
  unfold saveCandidate. by destruct (isSaved (filename result) s).
Qed.

Lemma step_pending_current (host : Host) (c : Component) (ev : UIEvent) :
  (∀ q m, pending c = Some (q, m) →
          q = query (state c) ∧ m = mode (state c)) →
  ∀ q m, pending (step host c ev) = Some (q, m) →
         q = query (state (step host c ev)) ∧ m = mode (state (step host c ev)).
Proof.
  intros Hc q m.
  assert (∀ s', (if depsChanged (state c) s' then Some (query s', mode s')
                 else pending c) = Some (q, m) →
                q = query s' ∧ m = mode s') as Hhandler.
  { intros s'. unfold depsChanged.
    destruct (bool_decide (query (state c) = query s')) eqn:Hq;
      [|by intros [= <- <-]].
    destruct (bool_decide (mode (state c) = mode s')) eqn:Hm;
      [|by intros [= <- <-]].
    simpl. intros Hp. apply bool_decide_eq_true in Hq, Hm.
    rewrite <- Hq, <- Hm. by apply Hc. }
  destruct ev;
    lazymatch goal with
    | |- context [step host c ?e] => try exact (Hhandler (handle e (state c)))
    end.
  simpl. destruct (pending c) as [[q' m']|] eqn:Hp; [|by rewrite Hp].
  by destruct (runSearch host q' m' (state c)).
Qed.

(** X6. The timer never holds a stale closure: in every state a session
    reaches, a pending search is on the query and the mode of that
    state. *)
Theorem pending_search_is_current (script : list (Host * UIEvent))
    (q : jsstring) (m : SearchMode) :
  pending (run script) = Some (q, m) →
  q = query (state (run script)) ∧ m = mode (state (run script)).
Proof.
  revert q m. induction script as [|[host ev] script IH] using rev_ind.
  - by intros q m [= <- <-].
  - rewrite run_snoc. by apply step_pending_current.
Qed.

Lemma pending_search_witness :
  let host := sampleHost networkDown in
  let script := [(host, ChangeQuery (lit "py")); (host, ClickMode Resume);
                 (host, ChangeQuery (lit "python"))] in
  pending (run script) = Some (lit "python", Resume)
  ∧ lit "python" = query (state (run script))
  ∧ Resume = mode (state (run script)).
Proof.
  split; [reflexivity|].
  by apply (pending_search_is_current
              [(sampleHost networkDown, ChangeQuery (lit "py"));
               (sampleHost networkDown, ClickMode Resume);
               (sampleHost networkDown, ChangeQuery (lit "python"))]).
Defined.

Lemma fetchCount_app (l1 l2 : list Event) :
  fetchCount (l1 ++ l2) = fetchCount l1 + fetchCount l2.
Proof. unfold fetchCount. by rewrite filter_app, length_app. Qed.

Lemma fetchCount_runSearch (host : Host) (q : jsstring) (m : SearchMode)
    (s : State) :
  fetchCount (runSearch host q m s).2
  = if bool_decide (trim q = []) then 0 else 1.
Proof.
  unfold fetchCount. case_bool_decide as Hq.
  - by rewrite runSearch_empty.
  - by rewrite runSearch_fetches.
Qed.

Lemma handler_owed (c : Component) (s' : State) (k : nat) :
  (depsChanged (state c) s' = true → k = 1) →
  fetchCount (trace c)
  + owed {| state := s';
            pending := if depsChanged (state c) s'
                       then Some (query s', mode s') else pending c;
            trace := trace c |}
  ≤ fetchCount (trace c) + owed c + k.
Proof.
  intros Hk. unfold owed at 1. simpl.
  destruct (depsChanged (state c) s'); [|fold (owed c); lia].
  rewrite Hk by done. case_bool_decide; lia.
Qed.

Lemma step_owed (host : Host) (c : Component) (ev : UIEvent) :
  fetchCount (trace (step host c ev)) + owed (step host c ev)
  ≤ fetchCount (trace c) + owed c
    + (if changesSearchInput ev then 1 else 0).
Proof.
  assert (∀ ev', changesSearchInput ev' = false →
            depsChanged (state c) (handle ev' (state c)) = true → 0 = 1)
    as Hquiet.
  { intros ev' Hev. rewrite depsChanged_false; [done | |];
      by apply handle_keeps_inputs. }
  destruct ev;
    lazymatch goal with
    | |- context [step host c DebounceElapsed] => idtac
    | |- context [step host c ?e] =>
        apply (handler_owed c (handle e (state c))); first [done | by apply Hquiet]
    end.
  destruct (pending c) as [[q m]|] eqn:Hp.
  - pose proof (fetchCount_runSearch host q m (state c)) as Hrun.
    unfold step, owed. rewrite Hp.
    destruct (runSearch host q m (state c)) as [s' l]. simpl in *.
    rewrite fetchCount_app, Hrun. lia.
  - unfold step. rewrite Hp. simpl. lia.
Qed.

(** X7. Requests are debounced: in every session the number of [fetch]
    calls is at most the number of clicks on a mode button and changes of
    the input. No other event, and no firing of the timer by itself,
    adds a request. *)
Theorem requests_are_debounced (script : list (Host * UIEvent)) :
  fetchCount (trace (run script))
  ≤ length (filter (λ he, changesSearchInput he.2 = true) script).
Proof.
  assert (fetchCount (trace (run script)) + owed (run script)
          ≤ length (filter (λ he, changesSearchInput he.2 = true) script));
    [|lia].
  induction script as [|[host ev] script IH] using rev_ind; [done|].
  rewrite run_snoc, filter_app, length_app.
  pose proof (step_owed host (run script) ev) as Hstep.
  rewrite filter_cons, filter_nil. simpl.
  destruct (changesSearchInput ev); simpl in *; lia.
Qed.

(** ** Events that are not inputs of the search *)

(** X8. Viewing details, bookmarking, removing a saved candidate,
    expanding or collapsing a card and closing the modal neither send nor
    schedule a request, and leave the query, the mode, the results, the
    error and the spinner as they are. *)
Theorem other_events_leave_the_search_alone (host : Host) (c : Component)
    (ev : UIEvent) :
  changesSearchInput ev = false → ev ≠ DebounceElapsed →
  let c' := step host c ev in
  trace c' = trace c ∧ pending c' = pending c
  ∧ query (state c') = query (state c) ∧ mode (state c') = mode (state c)
  ∧ results (state c') = results (state c)
  ∧ error (state c') = error (state c)
  ∧ loading (state c') = loading (state c).
Proof.
  intros Hev Htimer c'. subst c'.
  destruct (handle_keeps_inputs ev (state c) Hev) as (Hq & Hm & Hr & He & Hl).
  assert (step host c ev
          = {| state := handle ev (state c);
               pending := if depsChanged (state c) (handle ev (state c))
                          then Some (query (handle ev (state c)),
                                     mode (handle ev (state c)))
                          else pending c;
               trace := trace c |}) as -> by (by destruct ev).
  simpl. by rewrite depsChanged_false.
Qed.

Lemma other_events_witness :
  let host := sampleHost networkDown in
  let c := run [(host, ChangeQuery (lit "python"))] in
  trace (step host c (ClickBookmark alice)) = trace c
  ∧ pending (step host c (ClickBookmark alice)) = pending c
  ∧ query (state (step host c (ClickBookmark alice))) = query (state c)
  ∧ mode (state (step host c (ClickBookmark alice))) = mode (state c)
  ∧ results (state (step host c (ClickBookmark alice))) = results (state c)
  ∧ error (state (step host c (ClickBookmark alice))) = error (state c)
  ∧ loading (state (step host c (ClickBookmark alice))) = loading (state c).
Proof.
  by apply (other_events_leave_the_search_alone (sampleHost networkDown)
              (run [(sampleHost networkDown, ChangeQuery (lit "python"))])
              (ClickBookmark alice)).
Defined.

(** X9. Expansion is kept per position and only the button changes it:
    every event other than a click on Show More / Show Less -- a new
    query, another mode, a completed search that replaced the results --
    leaves the set of expanded positions as it is. *)
Theorem expansion_survives_everything_else (host : Host) (c : Component)
    (ev : UIEvent) :
  (∀ index, ev ≠ ClickShowMoreLess index) →
  expandedResults (state (step host c ev)) = expandedResults (state c).
Proof.
  intros Hev. destruct ev; simpl; try done.
  - unfold saveCandidate, removeCandidate.
    by destruct (isSaved (filename result) (state c)).
  - by destruct (Hev index).
  - destruct (pending c) as [[q m]|]; [|done].
    destruct (runSearch_state host q m (state c))
      as [[_ Hs] | [(_ & e & _ & Hs) | (_ & found & _ & Hs)]];
      destruct (runSearch host q m (state c)) as [s' l]; simpl in *;
      by rewrite Hs.
Qed.

Lemma expansion_survives_witness :
  let host := sampleHost (respond true 200 text_no_matches) in
  let c := run [(host, ClickShowMoreLess 0); (host, ChangeQuery (lit "python"))] in
  expandedResults (state (step host c DebounceElapsed))
  = expandedResults (state c)
  ∧ 0 ∈ expandedResults (state (step host c DebounceElapsed)).
Proof.
  assert (expandedResults
            (state (step (sampleHost (respond true 200 text_no_matches))
                      (run [(sampleHost (respond true 200 text_no_matches),
                             ClickShowMoreLess 0);
                            (sampleHost (respond true 200 text_no_matches),
                             ChangeQuery (lit "python"))])
                      DebounceElapsed))
          = expandedResults
              (state (run [(sampleHost (respond true 200 text_no_matches),
                            ClickShowMoreLess 0);
                           (sampleHost (respond true 200 text_no_matches),
                            ChangeQuery (lit "python"))]))) as Heq
    by (by apply expansion_survives_everything_else).
  split; [exact Heq|]. rewrite Heq. vm_compute. set_solver.
Defined.

(** ** The mode buttons *)

Lemma setMode_same (s : State) : setMode (mode s) s = s.
Proof. by destruct s. Qed.

Lemma depsChanged_mode (s : State) (m' : SearchMode) :
  depsChanged s (setMode m' s) = bool_decide (mode s ≠ m').
Proof.
  unfold depsChanged. simpl. rewrite bool_decide_eq_true_2 by done. simpl.
  by repeat case_bool_decide.
Qed.

Lemma step_ClickMode (host : Host) (c : Component) (m' : SearchMode) :
  step host c (ClickMode m')
  = {| state := setMode m' (state c);
       pending := if bool_decide (mode (state c) ≠ m')
                  then Some (query (state c), m') else pending c;
       trace := trace c |}.
Proof. unfold step, handle. by rewrite depsChanged_mode. Qed.

(** X10. A click on the button of the active mode changes nothing and
    schedules nothing. A click on another mode button schedules a search
    of the same query in the new mode: when the timer fires, the events
    added to the trace are those of [searchResumes] on the unchanged
    query and the clicked mode. *)
Theorem mode_switch_searches_again (host host' : Host) (c : Component)
    (m' : SearchMode) :
  (mode (state c) = m' → step host c (ClickMode m') = c)
  ∧ (mode (state c) ≠ m' →
     pending (step host c (ClickMode m')) = Some (query (state c), m')
     ∧ trace (step host' (step host c (ClickMode m')) DebounceElapsed)
       = trace c
         ++ (runSearch host' (query (state c)) m'
               (setMode m' (state c))).2).
Proof.
  rewrite step_ClickMode. split.
  - intros <-. rewrite setMode_same. case_bool_decide; [done|].
    by destruct c.
  - intros Hm. rewrite bool_decide_eq_true_2 by done. simpl.
    split; [done|]. unfold step. simpl.
    by destruct (runSearch host' (query (state c)) m' (setMode m' (state c))).
Qed.

Lemma mode_switch_witness :
  let host := sampleHost networkDown in
  let c := run [(host, ChangeQuery (lit "python")); (host, DebounceElapsed)] in
  step host c (ClickMode Story) = c
  ∧ pending (step host c (ClickMode Resume)) = Some (lit "python", Resume)
  ∧ trace (step host (step host c (ClickMode Resume)) DebounceElapsed)
    = trace c ++ (runSearch host (lit "python") Resume
                    (setMode Resume (state c))).2.
Proof.
  destruct (mode_switch_searches_again (sampleHost networkDown)
              (sampleHost networkDown)
              (run [(sampleHost networkDown, ChangeQuery (lit "python"));
                    (sampleHost networkDown, DebounceElapsed)]) Story)
    as [Hsame _].
  destruct (mode_switch_searches_again (sampleHost networkDown)
              (sampleHost networkDown)
              (run [(sampleHost networkDown, ChangeQuery (lit "python"));
                    (sampleHost networkDown, DebounceElapsed)]) Resume)
    as [_ Hother].
  split; [by apply Hsame | by apply Hother].
Defined.

(** ** Show More / Show Less *)

(** X11. [toggleExpanded] flips the position it is given and no other:
    afterwards [index] is expanded exactly if it was not before, every
    other position is as before, and a second call restores the set. *)
Theorem toggleExpanded_flips_one_position (index : nat) (s : State) :
  (index ∈ expandedResults (toggleExpanded index s)
   ↔ index ∉ expandedResults s)
  ∧ (∀ other, other ≠ index →
       (other ∈ expandedResults (toggleExpanded index s)
        ↔ other ∈ expandedResults s))
  ∧ expandedResults (toggleExpanded index (toggleExpanded index s))
    = expandedResults s.
Proof.
  assert (∀ s0 other,
            other ∈ expandedResults (toggleExpanded index s0)
            ↔ (other = index ∧ index ∉ expandedResults s0)
              ∨ (other ≠ index ∧ other ∈ expandedResults s0)) as Hspec.
  { intros s0 other. unfold toggleExpanded. simpl.
    case_bool_decide; set_solver. }
  split_and!.
  - rewrite Hspec. naive_solver.
  - intros other Hne. rewrite Hspec. naive_solver.
  - apply set_eq. intros other. rewrite !Hspec.
    destruct (decide (other = index)) as [->|Hne]; [|naive_solver].
    destruct (decide (index ∈ expandedResults s)); naive_solver.
Qed.

Lemma toggleExpanded_witness :
  (∀ other, other ≠ 2 →
     (other ∈ expandedResults (toggleExpanded 2 initialState)
      ↔ other ∈ expandedResults initialState))
  ∧ 2 ∈ expandedResults (toggleExpanded 2 initialState).
Proof.
  destruct (toggleExpanded_flips_one_position 2 initialState)
    as (Hflip & Hother & _).
  split; [exact Hother|]. apply Hflip. simpl. set_solver.
Defined.

(** The body depends on the state through the mode and through whether
    the position is expanded. *)
Lemma renderResultContent_ext (s1 s2 : State) (result : SearchResult)
    (index : nat) :
  mode s1 = mode s2 →
  (index ∈ expandedResults s1 ↔ index ∈ expandedResults s2) →
  renderResultContent s1 result index = renderResultContent s2 result index.
Proof.
  intros Hm Hi. unfold renderResultContent. rewrite Hm.
  by rewrite (bool_decide_ext _ _ Hi).
Qed.

Lemma toggleExpanded_elem (index other : nat) (s : State) :
  other ∈ expandedResults (toggleExpanded index s)
  ↔ (other = index ∧ index ∉ expandedResults s)
    ∨ (other ≠ index ∧ other ∈ expandedResults s).
Proof. unfold toggleExpanded. simpl. case_bool_decide; set_solver. Qed.

(** X12. On the cards: a click on the button of card [index] changes the
    body of no other card; on a collapsed card it puts the whole content
    on screen with the label "Show Less" when the content is longer than
    400; and a second click brings back what was shown before. *)
Theorem show_more_then_show_less (s : State) (result : SearchResult)
    (index : nat) (content : jsstring) :
  modeContent (mode s) result = Some content →
  index ∉ expandedResults s →
  (∀ other r, other ≠ index →
     renderResultContent (toggleExpanded index s) r other
     = renderResultContent s r other)
  ∧ shownText (renderResultContent (toggleExpanded index s) result index)
    = content
  ∧ (400 < length content →
     toggle <$> renderResultContent (toggleExpanded index s) result index
     = Some (Some ShowLess))
  ∧ renderResultContent (toggleExpanded index (toggleExpanded index s))
      result index
    = renderResultContent s result index.
Proof.
  intros Hc Hcollapsed.
  assert (index ∈ expandedResults (toggleExpanded index s)) as Hexp
    by (apply toggleExpanded_elem; by left).
  split_and!.
  - intros other r Hne. apply renderResultContent_ext; [done|].
    rewrite toggleExpanded_elem. naive_solver.
  - rewrite renderResultContent_field. simpl mode. rewrite Hc.
    destruct content as [|c content]; [done|]. cbn [shownText markdown].
    rewrite (bool_decide_eq_true_2 _ Hexp). by rewrite andb_false_r.
  - intros Hlong. rewrite renderResultContent_field. simpl mode. rewrite Hc.
    destruct content as [|c content]; [simpl in Hlong; lia|].
    cbn [fmap option_fmap option_map toggle].
    apply Nat.ltb_lt in Hlong. rewrite Hlong.
    by rewrite (bool_decide_eq_true_2 _ Hexp).
  - apply renderResultContent_ext; [done|].
    rewrite !toggleExpanded_elem. naive_solver.
Qed.

Lemma show_more_witness :
  modeContent (mode initialState) verbose = Some (replicate 401 0x61%N)
  ∧ shownText (renderResultContent (toggleExpanded 0 initialState) verbose 0)
    = replicate 401 0x61%N
  ∧ renderResultContent (toggleExpanded 0 (toggleExpanded 0 initialState))
      verbose 0
    = renderResultContent initialState verbose 0.
Proof.
  split; [reflexivity|].
  destruct (show_more_then_show_less initialState verbose 0
              (replicate 401 0x61%N) eq_refl ltac:(simpl; set_solver))
    as (_ & Hfull & _ & Hback).
  by split.
Defined.

(** X13. A collapsed card never shows more than 403 code units (400 of
    the content and the three dots), whatever the content is. *)
Theorem collapsed_body_is_bounded (s : State) (result : SearchResult)
    (index : nat) :
  index ∉ expandedResults s →
  length (shownText (renderResultContent s result index)) ≤ 403.
Proof.
  intros Hcollapsed. rewrite renderResultContent_field.
  destruct (modeContent (mode s) result) as [[|c content]|]; simpl shownText;
    [simpl; lia | | simpl; lia].
  cbn [shownText markdown]. rewrite (bool_decide_eq_false_2 _ Hcollapsed).
  rewrite andb_true_r. destruct (400 <? _) eqn:Hlen; cbv iota.
  - change (length (c :: take 399 content ++ lit "..."))
      with (S (length (take 399 content ++ lit "..."))).
    rewrite length_app, length_take. change (length (lit "...")) with 3.
    pose proof (Nat.le_min_l 399 (length content)). lia.
  - apply Nat.ltb_ge in Hlen. simpl in *. lia.
Qed.

Lemma collapsed_body_witness :
  (0 ∉ expandedResults initialState)
  ∧ length (shownText (renderResultContent initialState verbose 0)) ≤ 403.
Proof.
  assert (0 ∉ expandedResults initialState) as H by (simpl; set_solver).
  split; [exact H|]. by apply collapsed_body_is_bounded.
Defined.

(** ** The bookmark button *)

Lemma isSaved_false_filter (name : jsstring) (s : State) :
  isSaved name s = false →
  filter (λ candidate, filename candidate ≠ name) (savedCandidates s)
  = savedCandidates s.
Proof.
  unfold isSaved. induction (savedCandidates s) as [|saved l IH]; [done|].
  simpl. intros [Hhd Htl]%orb_false_iff. apply bool_decide_eq_false in Hhd.
  rewrite filter_cons_True by done. by rewrite IH.
Qed.

Lemma isSaved_removeCandidate (name other : jsstring) (s : State) :
  isSaved other (removeCandidate name s)
  = isSaved other s && negb (bool_decide (other = name)).
Proof.
  apply eq_true_iff_eq. rewrite andb_true_iff, negb_true_iff,
    bool_decide_eq_false, !isSaved_spec, !list_elem_of_fmap.
  split.
  - intros (c & -> & [Hc Hne]%removeCandidate_spec). split; [|done].
    by exists c.
  - intros [(c & -> & Hc) Hne]. exists c. split; [done|].
    by apply removeCandidate_spec.
Qed.

Lemma isSaved_saveCandidate (candidate : SearchResult) (other : jsstring)
    (s : State) :
  isSaved other (saveCandidate candidate s)
  = isSaved other s || bool_decide (other = filename candidate).
Proof.
  apply eq_true_iff_eq. rewrite orb_true_iff, bool_decide_eq_true.
  unfold saveCandidate.
  destruct (isSaved (filename candidate) s) eqn:Hsaved; simpl.
  - split; [by left | intros [?| ->]; done].
  - rewrite !isSaved_spec. simpl. rewrite fmap_app, elem_of_app. simpl.
    by rewrite list_elem_of_singleton.
Qed.

(** X14. The bookmark button of a card toggles by filename: after the
    click the filename of the card is saved exactly if it was not before,
    every card with that filename changes its mark and every other
    filename keeps its status; and clicking twice on a candidate that
    was not saved gives back the saved list as it was. *)
Theorem bookmark_click_toggles (result : SearchResult) (s : State) :
  isSaved (filename result) (handle (ClickBookmark result) s)
  = negb (isSaved (filename result) s)
  ∧ (∀ index r, filename r = filename result →
       card_bookmarked (renderCard (handle (ClickBookmark result) s) index r)
       = negb (card_bookmarked (renderCard s index r)))
  ∧ (∀ name, name ≠ filename result →
       isSaved name (handle (ClickBookmark result) s) = isSaved name s)
  ∧ (isSaved (filename result) s = false →
     savedCandidates
       (handle (ClickBookmark result) (handle (ClickBookmark result) s))
     = savedCandidates s).
Proof.
  assert (∀ name, isSaved name (handle (ClickBookmark result) s)
                  = if bool_decide (name = filename result)
                    then negb (isSaved name s) else isSaved name s) as Hspec.
  { intros name. simpl.
    destruct (isSaved (filename result) s) eqn:Hsaved.
    - rewrite isSaved_removeCandidate.
      case_bool_decide as Hn; [subst; by rewrite Hsaved | by rewrite andb_true_r].
    - rewrite isSaved_saveCandidate.
      case_bool_decide as Hn; [subst; by rewrite Hsaved | by rewrite orb_false_r]. }
  split_and!.
  - by rewrite Hspec, bool_decide_eq_true_2.
  - intros index r Hr. simpl. rewrite Hr.
    by rewrite Hspec, bool_decide_eq_true_2.
  - intros name Hne. by rewrite Hspec, bool_decide_eq_false_2.
  - intros Hsaved.
    assert (handle (ClickBookmark result) s = saveCandidate result s) as ->
      by (simpl; by rewrite Hsaved).
    assert (isSaved (filename result) (saveCandidate result s) = true) as Hnow
      by (rewrite isSaved_saveCandidate, bool_decide_eq_true_2 by done;
          apply orb_true_r).
    simpl. rewrite Hnow. unfold saveCandidate. rewrite Hsaved. simpl.
    rewrite filter_app, isSaved_false_filter by done.
    rewrite filter_cons_False by (by intros ?). by rewrite app_nil_r.
Qed.

Lemma bookmark_click_witness :
  isSaved (filename alice) initialState = false
  ∧ savedCandidates
      (handle (ClickBookmark alice) (handle (ClickBookmark alice) initialState))
    = savedCandidates initialState
  ∧ isSaved (filename blank) (handle (ClickBookmark alice) initialState)
    = isSaved (filename blank) initialState.
Proof.
  destruct (bookmark_click_toggles alice initialState)
    as (_ & _ & Hother & Hback).
  split_and!; [reflexivity | by apply Hback | by apply Hother].
Defined.

(** ** The selected candidate *)

Lemma step_selection (host : Host) (c : Component) (ev : UIEvent) :
  (isModalOpen (state c) = true → is_Some (selectedCandidate (state c))) →
  (isModalOpen (state (step host c ev)) = true →
   is_Some (selectedCandidate (state (step host c ev))))
  ∧ (is_Some (selectedCandidate (state c)) →
     is_Some (selectedCandidate (state (step host c ev)))).
Proof.
  intros Hc.
  destruct ev; simpl;
    try (split; [first [exact Hc | done | by eexists]
                | first [done | by eexists]]).
  - unfold saveCandidate, removeCandidate.
    by destruct (isSaved (filename result) (state c)).
  - destruct (pending c) as [[q m]|]; [|done].
    destruct (runSearch_state host q m (state c))
      as [[_ Hs] | [(_ & e & _ & Hs) | (_ & found & _ & Hs)]];
      destruct (runSearch host q m (state c)) as [s' l]; simpl in *;
      by rewrite Hs.
Qed.

(** X15. The modal is never open on nothing: in every state a session
    reaches, an open modal has a selected candidate and shows its
    details; and a selection, once made, is never cleared -- closing the
    modal keeps it. *)
Theorem open_modal_has_a_candidate (script : list (Host * UIEvent)) :
  (isModalOpen (state (run script)) = true →
   ∃ candidate,
     selectedCandidate (state (run script)) = Some candidate
     ∧ Modal (isModalOpen (state (run script)))
         (selectedCandidate (state (run script)))
       = Some (candidateDetails candidate))
  ∧ (∀ host ev, is_Some (selectedCandidate (state (run script))) →
       is_Some (selectedCandidate (state (run (script ++ [(host, ev)]))))).
Proof.
  assert (isModalOpen (state (run script)) = true →
          is_Some (selectedCandidate (state (run script)))) as Hinv.
  { induction script as [|[host ev] script IH] using rev_ind; [done|].
    rewrite run_snoc. by apply step_selection. }
  split.
  - intros Hopen. destruct (Hinv Hopen) as [candidate Hc].
    exists candidate. split; [done|]. by rewrite Hopen, Hc.
  - intros host ev. rewrite run_snoc. by apply step_selection.
Qed.

Lemma open_modal_witness :
  let host := sampleHost networkDown in
  let script := [(host, ClickViewDetails alice); (host, ClickCloseModal);
                 (host, ClickViewDetails blank)] in
  isModalOpen (state (run script)) = true
  ∧ ∃ candidate,
      selectedCandidate (state (run script)) = Some candidate
      ∧ Modal (isModalOpen (state (run script)))
          (selectedCandidate (state (run script)))
        = Some (candidateDetails candidate).
Proof.
  split; [reflexivity|].
  by apply (open_modal_has_a_candidate
              [(sampleHost networkDown, ClickViewDetails alice);
               (sampleHost networkDown, ClickCloseModal);
               (sampleHost networkDown, ClickViewDetails blank)]).
Defined.

(** ** The saved panel *)

(** The pieces of [searchResumes] do not touch the saved candidates. *)
Lemma liveStep_Settles_savedCandidates (host : Host) (l : Live) (i : nat) :
  savedCandidates (state (now (liveStep host l (Settles i))))
  = savedCandidates (state (now l)).
Proof.
  destruct (inflight l !! i) as [[call|response]|] eqn:Hi.
  - destruct (fetch host call) as [e|response] eqn:Hf.
    + by rewrite (liveStep_fetch_rejected host l i call e Hi Hf).
    + by rewrite (liveStep_fetch_resolved host l i call response Hi Hf).
  - destruct (liveStep_body host l i response Hi) as (-> & _ & _).
    destruct (body_settles host response) as [[e He] | [found Hf]].
    + by rewrite (searchOnText_fails host _ _ response e He).
    + by rewrite (searchOnText_succeeds host _ _ response found Hf).
  - simpl. by rewrite Hi.
Qed.

Lemma liveStep_timer_savedCandidates (host : Host) (l : Live) :
  savedCandidates (state (now (liveStep host l (User DebounceElapsed))))
  = savedCandidates (state (now l)).
Proof.
  destruct (pending (now l)) as [[q m]|] eqn:Hp.
  - destruct (liveStep_timer host l q m Hp) as [-> _]. by case_bool_decide.
  - simpl. by rewrite Hp.
Qed.

Lemma liveStep_User_state (host : Host) (l : Live) (ev : UIEvent) :
  ev ≠ DebounceElapsed →
  state (now (liveStep host l (User ev))) = handle ev (state (now l)).
Proof. intros Hev. by destruct ev. Qed.

Lemma fmap_filter_filename (name : jsstring) (l : list SearchResult) :
  filename <$> filter (λ candidate, filename candidate ≠ name) l
  = filter (λ n, n ≠ name) (filename <$> l).
Proof.
  induction l as [|c l IH]; [done|]. rewrite fmap_cons.
  destruct (decide (filename c = name)) as [Hc|Hc].
  - rewrite !filter_cons_False by (intros H; by apply H). done.
  - rewrite !filter_cons_True by done. by rewrite fmap_cons, IH.
Qed.

(** How one step changes the filenames of the saved list. *)
Lemma liveStep_saved_names (host : Host) (l : Live) (ev : LiveEvent) :
  filename <$> savedCandidates (state (now (liveStep host l ev)))
  = match ev with
    | User (ClickBookmark r) =>
        if bool_decide (filename r ∈ filename <$> savedCandidates (state (now l)))
        then filter (λ n, n ≠ filename r)
               (filename <$> savedCandidates (state (now l)))
        else (filename <$> savedCandidates (state (now l))) ++ [filename r]
    | User (ClickSavedBookmark c) =>
        filter (λ n, n ≠ filename c)
          (filename <$> savedCandidates (state (now l)))
    | _ => filename <$> savedCandidates (state (now l))
    end.
Proof.
  destruct ev as [ev|i]; [|by rewrite liveStep_Settles_savedCandidates].
  destruct ev; try done.
  - rewrite liveStep_User_state by done. simpl.
    pose proof (isSaved_spec (filename result) (state (now l))) as Hsaved.
    destruct (isSaved (filename result) (state (now l))) eqn:His.
    + rewrite bool_decide_eq_true_2 by (by apply Hsaved).
      unfold removeCandidate. simpl. apply fmap_filter_filename.
    + rewrite bool_decide_eq_false_2.
      * unfold saveCandidate. rewrite His. simpl. by rewrite fmap_app.
      * intros Hin. apply Hsaved in Hin. done.
  - rewrite liveStep_User_state by done. simpl.
    unfold removeCandidate. simpl. apply fmap_filter_filename.
  - by rewrite liveStep_timer_savedCandidates.
Qed.

Lemma liveRun_NoDup (script : list (Host * LiveEvent)) :
  NoDup (filename <$> savedCandidates (state (now (liveRun script)))).
Proof.
  induction script as [|[host ev] script IH] using rev_ind.
  - apply NoDup_nil_2.
  - rewrite liveRun_snoc, liveStep_saved_names.
    destruct ev as [ev|i]; [|done]. destruct ev; try done.
    + case_bool_decide as Hin; [by apply NoDup_filter|].
      apply NoDup_app. split_and!; [done | | apply NoDup_singleton].
      intros n Hn ->%list_elem_of_singleton. done.
    + by apply NoDup_filter.
Qed.

(** X16. The saved panel, in every state a session reaches, runs that
    overlap included. It is rendered exactly when a candidate is saved,
    and then lists the filenames of the saved list, each of them once.
    The list is in the order of saving: the bookmark of a card whose
    filename is not in the list puts it at the end, the bookmark of a
    card whose filename is in the list and the bookmark of the panel
    take this filename out and keep the order of the others, and
    nothing else, a run of [searchResumes] included, changes the
    list. *)
Theorem saved_panel_lists_each_filename_once
    (script : list (Host * LiveEvent)) :
  let s := state (now (liveRun script)) in
  let names := filename <$> savedCandidates s in
  (renderSavedPanel s = None ↔ savedCandidates s = [])
  ∧ (∀ shown, renderSavedPanel s = Some shown →
       shown = names ∧ shown ≠ [] ∧ NoDup shown)
  ∧ (∀ v, render s = Some v → savedPanel v = renderSavedPanel s)
  ∧ (∀ (host : Host) (ev : LiveEvent),
       filename <$> savedCandidates
                      (state (now (liveStep host (liveRun script) ev)))
       = match ev with
         | User (ClickBookmark r) =>
             if bool_decide (filename r ∈ names)
             then filter (λ n, n ≠ filename r) names
             else names ++ [filename r]
         | User (ClickSavedBookmark c) => filter (λ n, n ≠ filename c) names
         | _ => names
         end).
Proof.
  intros s names. pose proof (liveRun_NoDup script) as Hnodup.
  fold s in Hnodup. fold names in Hnodup. split_and!.
  - unfold renderSavedPanel. destruct (savedCandidates s) as [|c l]; simpl.
    + done.
    + by split.
  - intros shown. unfold renderSavedPanel. subst names.
    destruct (savedCandidates s) as [|c l]; simpl; [done|]. by intros [= <-].
  - intros v Hv. unfold render in Hv. destruct (renderMain s); [|done].
    simpl in Hv. by injection Hv as <-.
  - intros host ev. apply liveStep_saved_names.
Qed.

Lemma saved_panel_witness :
  let host := sampleHost networkDown in
  let script := [(host, User (ChangeQuery (lit "python")));
                 (host, User DebounceElapsed);
                 (host, User (ClickBookmark alice));
                 (host, User (ClickBookmark blank));
                 (host, Settles 0);
                 (host, User (ClickBookmark alice));
                 (host, User (ClickBookmark alice))] in
  renderSavedPanel (state (now (liveRun script)))
  = Some [lit "blank.pdf"; lit "alice.pdf"]
  ∧ NoDup [lit "blank.pdf"; lit "alice.pdf"]
  ∧ filename <$> savedCandidates
                   (state (now (liveStep host (liveRun script)
                                  (User (ClickBookmark verbose)))))
    = [lit "blank.pdf"; lit "alice.pdf"; lit "verbose.pdf"]
  ∧ filename <$> savedCandidates
                   (state (now (liveStep host (liveRun script)
                                  (User (ClickSavedBookmark blank)))))
    = [lit "alice.pdf"].
Proof.
  cbv zeta.
  destruct (saved_panel_lists_each_filename_once
              [(sampleHost networkDown, User (ChangeQuery (lit "python")));
               (sampleHost networkDown, User DebounceElapsed);
               (sampleHost networkDown, User (ClickBookmark alice));
               (sampleHost networkDown, User (ClickBookmark blank));
               (sampleHost networkDown, Settles 0);
               (sampleHost networkDown, User (ClickBookmark alice));
               (sampleHost networkDown, User (ClickBookmark alice))])
    as (_ & Hshown & _ & Hstep).
  split_and!.
  - reflexivity.
  - apply (Hshown [lit "blank.pdf"; lit "alice.pdf"]). reflexivity.
  - rewrite Hstep. vm_compute. reflexivity.
  - rewrite Hstep. vm_compute. reflexivity.
Defined.

(** ** The earlier copy never takes anything back *)

Lemma part000_step_grows (host : Host) (c : Component) (ev : Part000.UIEvent) :
  savedCandidates (state c)
    `prefix_of` savedCandidates (state (Part000.step host c ev))
  ∧ (is_Some (selectedCandidate (state c)) →
     is_Some (selectedCandidate (state (Part000.step host c ev)))).
Proof.
  destruct ev; simpl;
    try (split; [reflexivity | first [done | by eexists]]).
  - unfold saveCandidate. destruct (isSaved (filename result) (state c)); simpl.
    + by split.
    + split; [by apply prefix_app_r | done].
  - destruct (pending c) as [[q m]|]; [|by split].
    destruct (runSearch_state host q m (state c))
      as [[_ Hs] | [(_ & e & _ & Hs) | (_ & found & _ & Hs)]];
      destruct (runSearch host q m (state c)) as [s' l]; simpl in *;
      by rewrite Hs.
Qed.

(** X17. In the earlier copy of the component nothing is ever undone:
    as a session goes on, the saved list only grows at its end (no
    candidate is removed or reordered), and once a candidate has been
    selected the side panel stays on screen. *)
Theorem part000_only_grows (script more : list (Host * Part000.UIEvent)) :
  savedCandidates (state (Part000.run script))
    `prefix_of` savedCandidates (state (Part000.run (script ++ more)))
  ∧ (is_Some (selectedCandidate (state (Part000.run script))) →
     is_Some (Part000.DetailsPanel
                (selectedCandidate (state (Part000.run (script ++ more)))))).
Proof.
  assert (savedCandidates (state (Part000.run script))
            `prefix_of` savedCandidates (state (Part000.run (script ++ more)))
          ∧ (is_Some (selectedCandidate (state (Part000.run script))) →
             is_Some (selectedCandidate
                        (state (Part000.run (script ++ more)))))) as [Hs Hsel].
  { induction more as [|[host ev] more [IHs IHsel]] using rev_ind.
    - by rewrite app_nil_r.
    - rewrite app_assoc. unfold Part000.run at 2 4. rewrite foldl_snoc.
      fold (Part000.run (script ++ more)). simpl.
      destruct (part000_step_grows host (Part000.run (script ++ more)) ev)
        as [Hg Hk].
      split; [by etrans | by intros ?%IHsel%Hk]. }
  split; [done|]. intros [c Hc]%Hsel. rewrite Hc. by eexists.
Qed.

Lemma part000_only_grows_witness :
  let host := sampleHost networkDown in
  let script := [(host, Part000.ClickViewDetails alice)] in
  let more := [(host, Part000.ChangeQuery (lit "python"));
               (host, Part000.DebounceElapsed)] in
  is_Some (selectedCandidate (state (Part000.run script)))
  ∧ is_Some (Part000.DetailsPanel
               (selectedCandidate (state (Part000.run (script ++ more))))).
Proof.
  assert (is_Some (selectedCandidate
            (state (Part000.run
                      [(sampleHost networkDown, Part000.ClickViewDetails alice)]))))
    as Hsel by (by eexists).
  split; [exact Hsel|].
  by apply (part000_only_grows
              [(sampleHost networkDown, Part000.ClickViewDetails alice)]
              [(sampleHost networkDown, Part000.ChangeQuery (lit "python"));
               (sampleHost networkDown, Part000.DebounceElapsed)]).
Defined.

(** ** The dark-mode switch of the page *)

Lemma applyTheme_spec (d : bool) (tokens : list jsstring) :
  (lit "dark" ∈ App.applyTheme d tokens ↔ d = true)
  ∧ filter (λ t, t ≠ lit "dark") (App.applyTheme d tokens)
    = filter (λ t, t ≠ lit "dark") tokens.
Proof.
  unfold App.applyTheme, App.tokenAdd, App.tokenRemove. destruct d.
  - case_bool_decide as Hin.
    + by split.
    + split.
      * split; [done|]. intros _. apply elem_of_app. right.
        apply list_elem_of_here.
      * rewrite filter_app, filter_cons_False by (intros H; by apply H).
        by rewrite filter_nil, app_nil_r.
  - split.
    + split; [|done]. intros [Hne _]%list_elem_of_filter. by destruct Hne.
    + rewrite list_filter_filter. apply list_filter_iff. tauto.
Qed.

(** X18. The class [dark] of the document follows the switch: after the
    first render and any number of clicks on the header button,
    [darkMode] is on exactly after an odd number of clicks, the class
    list contains [dark] exactly when [darkMode] is on, and the other
    classes of the document are the ones it came with, in their order. *)
Theorem dark_class_follows_the_switch (classList0 : list jsstring) (n : nat) :
  let page := Nat.iter n App.clickToggle (App.mount classList0) in
  App.darkMode page = Nat.odd n
  ∧ (lit "dark" ∈ App.classList page ↔ App.darkMode page = true)
  ∧ filter (λ t, t ≠ lit "dark") (App.classList page)
    = filter (λ t, t ≠ lit "dark") classList0.
Proof.
  induction n as [|n (Hd & Hc & Hf)]; cbn zeta.
  - simpl Nat.iter. unfold App.mount. simpl App.darkMode. simpl App.classList.
    destruct (applyTheme_spec false classList0) as [Hin Hfilter].
    by split_and!.
  - cbn zeta in Hd, Hc, Hf. rewrite Nat.iter_succ.
    set (page := Nat.iter n App.clickToggle (App.mount classList0)) in *.
    unfold App.clickToggle. simpl App.darkMode. simpl App.classList.
    destruct (applyTheme_spec (negb (App.darkMode page)) (App.classList page))
      as [Hin Hfilter].
    split_and!; [|done|by rewrite Hfilter].
    rewrite Hd, Nat.odd_succ. by rewrite <- Nat.negb_odd.
Qed.

(** ** What else keeps the saved list *)

(** X19. Only the two bookmark buttons change the saved list: a new
    query, another mode, a completed search (failed or not), viewing
    details, expanding a card and closing the modal all leave the saved
    candidates as they are. *)
Theorem only_bookmarks_change_the_saved_list (host : Host) (c : Component)
    (ev : UIEvent) :
  (∀ result, ev ≠ ClickBookmark result) →
  (∀ candidate, ev ≠ ClickSavedBookmark candidate) →
  savedCandidates (state (step host c ev)) = savedCandidates (state c).
Proof.
  intros Hcard Hpanel. destruct ev; simpl; try done.
  - by destruct (Hcard result).
  - by destruct (Hpanel candidate).
  - destruct (pending c) as [[q m]|]; [|done].
    pose proof (runSearch_savedCandidates host q m (state c)) as Hrun.
    by destruct (runSearch host q m (state c)).
Qed.

Lemma only_bookmarks_witness :
  let host := sampleHost (respond true 200 text_no_matches) in
  let c := run [(host, ClickBookmark alice); (host, ChangeQuery (lit "ux"))] in
  savedCandidates (state (step host c DebounceElapsed)) = [alice].
Proof.
  cbv zeta.
  by rewrite (only_bookmarks_change_the_saved_list
                (sampleHost (respond true 200 text_no_matches))
                (run [(sampleHost (respond true 200 text_no_matches),
                       ClickBookmark alice);
                      (sampleHost (respond true 200 text_no_matches),
                       ChangeQuery (lit "ux"))]) DebounceElapsed).
Defined.

(** ** The console *)

(** X20. A run on a non-empty query logs the request body first and
    sends it next; if the request fails, whatever the reason, the last
    event of the run is the [console.error] of the value that was
    caught; if it succeeds, nothing is logged as an error. *)
Theorem failures_are_logged (host : Host) (q : jsstring) (m : SearchMode)
    (s : State) :
  trim q ≠ [] →
  take 2 (runSearch host q m s).2
  = [EvConsole (MakingSearchRequest (requestBody q m));
     EvFetch (searchCall host q m)]
  ∧ (∀ e, RequestFails host (searchCall host q m) e →
       last (runSearch host q m s).2 = Some (EvConsole (SearchError e)))
  ∧ (∀ found e, RequestSucceeds host (searchCall host q m) found →
       EvConsole (SearchError e) ∉ (runSearch host q m s).2).
Proof.
  intros Hq. run_async. rewrite bool_decide_eq_false_2 by done. split_and!.
  - destruct (fetch host _) as [e|r]; [done|].
    destruct (text r) as [e|t]; [done|].
    destruct (ok r); simpl; [|done].
    destruct (JSON_parse host t) as [e|data]; [done|].
    by destruct (getProp host data _).
  - intros e [e' He | r e' Hr He | r t Hr Ht Hok | r t e' Hr Ht Hok He
             | r t data e' Hr Ht Hok Hd He].
    + by rewrite He.
    + by rewrite Hr, He.
    + by rewrite Hr, Ht, Hok.
    + by rewrite Hr, Ht, Hok, He.
    + by rewrite Hr, Ht, Hok, Hd, He.
  - intros found e [r t data found' Hr Ht Hok Hd Hf].
    rewrite Hr, Ht, Hok, Hd, Hf. simpl.
    rewrite !elem_of_cons, elem_of_nil. by intros [?|[?|[?|[?|?]]]].
Qed.

Lemma failures_are_logged_witness :
  let host := sampleHost (respond false 500 (lit "oops")) in
  last (runSearch host (lit "python") Story initialState).2
  = Some (EvConsole (SearchError (ErrorObject (lit "API Error: oops")))).
Proof.
  refine (proj1 (proj2 (failures_are_logged
            (sampleHost (respond false 500 (lit "oops"))) (lit "python") Story
            initialState _)) _ _); [done|].
  by eapply fails_not_ok.
Defined.
